(** * Verification of [src/services/supabaseAuthService.ts]

    A shallow embedding of the authentication facade: the loosely typed
    JavaScript values it shuffles around, the asynchronous functions as
    finite programs over the calls they make to the Supabase client, and
    the properties of the user-record reconciliation stated in the
    specification. *)

From Stdlib Require Import String Ascii ZArith List.
From stdpp Require Import base option gmap strings list.

Local Open Scope string_scope.
Local Open Scope list_scope.
Local Open Scope nat_scope.

(** ** JavaScript values

    Rows of the [users] table and the provider's [user_metadata] are of
    type [any]: every field read yields some JavaScript value.  Only the
    primitive values are modelled (JSON objects and arrays nested inside
    a field are left out; they would be truthy and non-nullish). *)

Inductive JsVal : Type :=
| JUndefined
| JNull
| JBool (b : bool)
| JNum (n : Z)
| JStr (s : string).

#[global] Instance JsVal_eq_dec : EqDecision JsVal.
Proof. solve_decision. Defined.

(** ToBoolean. *)
Definition truthy (v : JsVal) : bool :=
  match v with
  | JUndefined | JNull => false
  | JBool b => b
  | JNum n => negb (n =? 0)%Z
  | JStr s => negb (String.eqb s "")
  end.

(** [a || b] on values whose right operand has no effect. *)
Definition js_or (a b : JsVal) : JsVal := if truthy a then a else b.

(** [a ?? b]. *)
Definition js_nullish (a b : JsVal) : JsVal :=
  match a with
  | JUndefined | JNull => b
  | _ => a
  end.

(** [a === b] on primitives. *)
Definition js_strict_eq (a b : JsVal) : bool := bool_decide (a = b).

(** [v === undefined]. *)
Definition is_undefined (v : JsVal) : bool :=
  match v with
  | JUndefined => true
  | _ => false
  end.

(** A JavaScript object used as a record with string keys. *)
Abbreviation JsObj := (gmap string JsVal).

(** Property read [o.k]: a missing key reads as [undefined]. *)
Definition prop (o : JsObj) (k : string) : JsVal := default JUndefined (o !! k).

(** An optional string ([string | undefined]) as a value. *)
Definition opt_str (o : option string) : JsVal :=
  match o with
  | Some s => JStr s
  | None => JUndefined
  end.

(** [s.split(sep)] for a one-character separator. *)
Fixpoint split (sep : ascii) (s : string) : list string :=
  match s with
  | EmptyString => [EmptyString]
  | String c r =>
      if Ascii.eqb c sep then EmptyString :: split sep r
      else match split sep r with
           | h :: t => String c h :: t
           | [] => [String c EmptyString]
           end
  end.

(** [email.split('@')[0]]. *)
Definition split_at_0 (email : string) : JsVal := opt_str (split "@" email !! 0%nat).

(** [email?.split('@')[0]]. *)
Definition opt_split_at_0 (email : option string) : JsVal :=
  match email with
  | Some e => split_at_0 e
  | None => JUndefined
  end.

(** The local part of an address: everything before the first [@]. *)
Fixpoint local_part (s : string) : string :=
  match s with
  | EmptyString => EmptyString
  | String c r => if Ascii.eqb c "@" then EmptyString else String c (local_part r)
  end.

(** ** Data model *)

(** [interface TexaUser]; an optional field that is not set reads
    [JUndefined].  The same shape serves for [Partial<TexaUser>]. *)
Module TexaUser.
Record t : Type := mk {
  id : JsVal;
  email : JsVal;
  name : JsVal;
  photoURL : JsVal;
  role : JsVal;
  isActive : JsVal;
  subscriptionEnd : JsVal;
  createdAt : JsVal;
  lastLogin : JsVal
}.

#[global] Instance eq_dec : EqDecision t.
Proof. solve_decision. Defined.
End TexaUser.

(** The identity provider's [User], reduced to the fields the file reads. *)
Module User.
Record t : Type := mk {
  id : string;
  email : option string;
  user_metadata : option JsObj;
  created_at : string
}.

(** [user.user_metadata?.k]. *)
Definition metadata (u : t) (k : string) : JsVal :=
  match user_metadata u with
  | Some m => prop m k
  | None => JUndefined
  end.
End User.

(** The provider's [Session]; only [session.user] is read. *)
Module Session.
Record t : Type := mk { user : option User.t }.
End Session.

(** A thrown value or the reason of a rejected promise; [message] is
    what [error.message] reads on it. *)
Record Exn : Type := { message : option string }.

(** [error.message || fallback]. *)
Definition message_or (e : Exn) (fallback : string) : string :=
  match message e with
  | Some m => if String.eqb m "" then fallback else m
  | None => fallback
  end.

(** ** Calls to the Supabase client and their responses *)

(** [{ data, error }] of a query on the [users] table. *)
Module Postgrest.
Record t : Type := mk { data : option JsObj; error : option string }.
End Postgrest.

(** [{ data: { user }, error }] of an identity-provider call;
    [error] carries [error.message]. *)
Module Auth.
Record t : Type := mk { user : option User.t; error : option string }.
End Auth.

Inductive Request : Type :=
| AuthSignUp (email password : string) (full_name : JsVal)
| AuthGetUser
| UsersSelectSingle (columns id : string)
| UsersUpsert (row : JsObj) (onConflict : option string)
| UsersUpdate (row : JsObj) (id : string).

Definition Response (r : Request) : Type :=
  match r with
  | AuthSignUp _ _ _ | AuthGetUser => Auth.t
  | UsersSelectSingle _ _ | UsersUpsert _ _ | UsersUpdate _ _ => Postgrest.t
  end.

(** How an awaited promise settles. *)
Inductive Outcome (X : Type) : Type :=
| Resolved (x : X)
| Rejected (e : Exn).
Arguments Resolved {X} x.
Arguments Rejected {X} e.

(** ** Asynchronous functions as programs

    The file has no loops: every function is a finite tree of effects. *)

Inductive Prog (A : Type) : Type :=
| Ret (a : A)
| Throw (e : Exn)
| Await (r : Request) (k : Outcome (Response r) -> Prog A)
| NewDate (k : string -> Prog A)
| ConsoleError (msg : string) (k : Prog A)
| Callback (u : option TexaUser.t) (k : Outcome unit -> Prog A).
Arguments Ret {A} a.
Arguments Throw {A} e.
Arguments Await {A} r k.
Arguments NewDate {A} k.
Arguments ConsoleError {A} msg k.
Arguments Callback {A} u k.

Fixpoint bind {A B : Type} (p : Prog A) (f : A -> Prog B) : Prog B :=
  match p with
  | Ret a => f a
  | Throw e => Throw e
  | Await r k => Await r (fun o => bind (k o) f)
  | NewDate k => NewDate (fun t => bind (k t) f)
  | ConsoleError msg k => ConsoleError msg (bind k f)
  | Callback u k => Callback u (fun o => bind (k o) f)
  end.

#[global] Instance Prog_ret : MRet Prog := @Ret.
#[global] Instance Prog_bind : MBind Prog := fun A B f p => bind p f.

(** [try { body } catch (error) { handler }]. *)
Fixpoint try_catch {A : Type} (body : Prog A) (handler : Exn -> Prog A) : Prog A :=
  match body with
  | Ret a => Ret a
  | Throw e => handler e
  | Await r k => Await r (fun o => try_catch (k o) handler)
  | NewDate k => NewDate (fun t => try_catch (k t) handler)
  | ConsoleError msg k => ConsoleError msg (try_catch k handler)
  | Callback u k => Callback u (fun o => try_catch (k o) handler)
  end.

(** A settled promise continues the function or throws into it. *)
Definition settle {X : Type} (o : Outcome X) : Prog X :=
  match o with
  | Resolved x => Ret x
  | Rejected e => Throw e
  end.

(** [await request]. *)
Definition await (r : Request) : Prog (Response r) := Await r settle.

(** [new Date().toISOString()]. *)
Definition now : Prog JsVal := NewDate (fun t => Ret (JStr t)).

(** [console.error(msg, error)]. *)
Definition console_error (msg : string) : Prog unit := ConsoleError msg (Ret tt).

(** [callback(user)]; an exception of the callback propagates. *)
Definition callback (u : option TexaUser.t) : Prog unit := Callback u settle.

(** [a || b] where evaluating [b] has an effect. *)
Definition or_else (a : JsVal) (b : Prog JsVal) : Prog JsVal :=
  if truthy a then Ret a else b.

(** ** The functions of the file *)

(** [mapSupabaseUser], lines 22-69. *)
Definition mapSupabaseUser (user : option User.t) : Prog (option TexaUser.t) :=
  match user with
  | None => Ret None
  | Some user =>
      try_catch
        (res ← await (UsersSelectSingle "*" (User.id user));
         match Postgrest.error res, Postgrest.data res with
         | None, Some profile =>
             lastLogin ← or_else (prop profile "last_login") now;
             Ret (Some {|
               TexaUser.id := prop profile "id";
               TexaUser.email :=
                 js_or (js_or (prop profile "email") (opt_str (User.email user))) (JStr "");
               TexaUser.name :=
                 js_or (js_or (prop profile "name") (User.metadata user "full_name")) (JStr "");
               TexaUser.photoURL :=
                 js_or (js_or (prop profile "photo_url") (User.metadata user "avatar_url"))
                       (JStr "");
               TexaUser.role := js_or (prop profile "role") (JStr "MEMBER");
               TexaUser.isActive := js_nullish (prop profile "is_active") (JBool true);
               TexaUser.subscriptionEnd := prop profile "subscription_end";
               TexaUser.createdAt := prop profile "created_at";
               TexaUser.lastLogin := lastLogin
             |})
         | _, _ =>
             lastLogin ← now;
             Ret (Some {|
               TexaUser.id := JStr (User.id user);
               TexaUser.email := js_or (opt_str (User.email user)) (JStr "");
               TexaUser.name :=
                 js_or (js_or (User.metadata user "full_name")
                              (opt_split_at_0 (User.email user)))
                       (JStr "");
               TexaUser.photoURL := js_or (User.metadata user "avatar_url") (JStr "");
               TexaUser.role := JStr "MEMBER";
               TexaUser.isActive := JBool true;
               TexaUser.subscriptionEnd := JUndefined;
               TexaUser.createdAt := JStr (User.created_at user);
               TexaUser.lastLogin := lastLogin
             |})
         end)
        (fun _ =>
           _ ← console_error "Error mapping Supabase user:";
           Ret (Some {|
             TexaUser.id := JStr (User.id user);
             TexaUser.email := js_or (opt_str (User.email user)) (JStr "");
             TexaUser.name := js_or (User.metadata user "full_name") (JStr "");
             TexaUser.photoURL := js_or (User.metadata user "avatar_url") (JStr "");
             TexaUser.role := JStr "MEMBER";
             TexaUser.isActive := JBool true;
             TexaUser.subscriptionEnd := JUndefined;
             TexaUser.createdAt := JUndefined;
             TexaUser.lastLogin := JUndefined
           |}))
  end.

(** The result of [signUp]: [{ user, error }]. *)
Module SignResult.
Record t : Type := mk { user : option TexaUser.t; error : option string }.
End SignResult.

(** An object literal [{ k1: v1, ..., kn: vn }] with distinct keys. *)
Definition obj (fields : list (string * JsVal)) : JsObj := list_to_map fields.

(** [signUp], lines 72-108. *)
Definition signUp (email password : string) (name : option string)
  : Prog SignResult.t :=
  try_catch
    (res ← await (AuthSignUp email password (js_or (opt_str name) (split_at_0 email)));
     match Auth.error res with
     | Some msg => Ret (SignResult.mk None (Some msg))
     | None =>
         match Auth.user res with
         | Some user =>
             created_at ← now;
             last_login ← now;
             _ ← await (UsersUpsert
                          (obj [("id", JStr (User.id user));
                                ("email", opt_str (User.email user));
                                ("name", js_or (opt_str name) (split_at_0 email));
                                ("role", JStr "MEMBER");
                                ("is_active", JBool true);
                                ("created_at", created_at);
                                ("last_login", last_login)])
                          None);
             texaUser ← mapSupabaseUser (Some user);
             Ret (SignResult.mk texaUser None)
         | None => Ret (SignResult.mk None (Some "Sign up failed"))
         end
     end)
    (fun error => Ret (SignResult.mk None (Some (message_or error "Sign up failed")))).

(** [getCurrentUser], lines 183-191. *)
Definition getCurrentUser : Prog (option TexaUser.t) :=
  try_catch
    (res ← await AuthGetUser;
     mapSupabaseUser (Auth.user res))
    (fun _ =>
       _ ← console_error "Error getting current user:";
       Ret None).

(** The handler that [onAuthChange] passes to
    [supabase.auth.onAuthStateChange], lines 202-221.  [session?.user]
    is [session ≫= Session.user]. *)
Definition authStateHandler (event : string) (session : option Session.t) : Prog unit :=
  if String.eqb event "SIGNED_IN" || String.eqb event "TOKEN_REFRESHED" then
    user ← mapSupabaseUser (session ≫= Session.user);
    _ ← match session ≫= Session.user with
        | Some su =>
            last_login ← now;
            _ ← await (UsersUpsert
                         (obj [("id", JStr (User.id su));
                               ("email", opt_str (User.email su));
                               ("name", js_or (User.metadata su "full_name")
                                              (opt_split_at_0 (User.email su)));
                               ("photo_url", User.metadata su "avatar_url");
                               ("last_login", last_login)])
                         (Some "id"));
            Ret tt
        | None => Ret tt
        end;
    callback user
  else if String.eqb event "SIGNED_OUT" then callback None
  else Ret tt.

(** The task started by the first statement of [onAuthChange],
    [getCurrentUser().then(user => { callback(user); })]. *)
Definition initialUserTask : Prog unit :=
  user ← getCurrentUser;
  callback user.

(** [if (v !== undefined) updateData.k = v]. *)
Definition assign_defined (k : string) (v : JsVal) (updateData : JsObj) : JsObj :=
  if is_undefined v then updateData else <[k := v]> updateData.

(** The object that [updateUserProfile] builds in lines 232-237. *)
Definition updateData (updates : TexaUser.t) : JsObj :=
  assign_defined "subscription_end" (TexaUser.subscriptionEnd updates)
    (assign_defined "is_active" (TexaUser.isActive updates)
       (assign_defined "role" (TexaUser.role updates)
          (assign_defined "photo_url" (TexaUser.photoURL updates)
             (assign_defined "name" (TexaUser.name updates) ∅)))).

(** [updateUserProfile], lines 230-253. *)
Definition updateUserProfile (userId : string) (updates : TexaUser.t) : Prog bool :=
  try_catch
    (res ← await (UsersUpdate (updateData updates) userId);
     match Postgrest.error res with
     | Some _ =>
         _ ← console_error "Error updating user profile:";
         Ret false
     | None => Ret true
     end)
    (fun _ =>
       _ ← console_error "Error updating user profile:";
       Ret false).

(** [isAdmin], lines 256-269. *)
Definition isAdmin (userId : string) : Prog bool :=
  try_catch
    (res ← await (UsersSelectSingle "role" userId);
     match Postgrest.error res, Postgrest.data res with
     | None, Some data => Ret (js_strict_eq (prop data "role") (JStr "ADMIN"))
     | _, _ => Ret false
     end)
    (fun _ => Ret false).

(** [getUserById], lines 272-297. *)
Definition getUserById (userId : string) : Prog (option TexaUser.t) :=
  try_catch
    (res ← await (UsersSelectSingle "*" userId);
     match Postgrest.error res, Postgrest.data res with
     | None, Some data =>
         Ret (Some {|
           TexaUser.id := prop data "id";
           TexaUser.email := prop data "email";
           TexaUser.name := prop data "name";
           TexaUser.photoURL := prop data "photo_url";
           TexaUser.role := js_or (prop data "role") (JStr "MEMBER");
           TexaUser.isActive := js_nullish (prop data "is_active") (JBool true);
           TexaUser.subscriptionEnd := prop data "subscription_end";
           TexaUser.createdAt := prop data "created_at";
           TexaUser.lastLogin := prop data "last_login"
         |})
     | _, _ => Ret None
     end)
    (fun _ =>
       _ ← console_error "Error getting user by ID:";
       Ret None).

(** ** Running a program against its environment

    The Supabase client, the clock and the subscriber's callback are the
    environment.  It is any state machine over a type [World]: it
    settles each awaited request, gives the time, and runs the callback,
    which returns or throws. *)

Inductive Effect : Type :=
| Requested (r : Request)
| Logged (msg : string)
| Called (u : option TexaUser.t).

Record Run (World A : Type) : Type := mkRun {
  final : World;
  trace : list Effect;
  outcome : Outcome A
}.
Arguments mkRun {World A}.
Arguments final {World A}.
Arguments trace {World A}.
Arguments outcome {World A}.

Record Env (World : Type) : Type := mkEnv {
  respond : forall r : Request, World -> World * Outcome (Response r);
  clock : World -> World * string;
  invoke : option TexaUser.t -> World -> World * Outcome unit
}.
Arguments respond {World}.
Arguments clock {World}.
Arguments invoke {World}.

Section Exec.
Context {World : Type} (env : Env World).

(** Runs [p] to completion, every promise settled as [env] decides. *)
Fixpoint exec {A : Type} (p : Prog A) (w : World) : Run World A :=
  match p with
  | Ret a => mkRun w [] (Resolved a)
  | Throw e => mkRun w [] (Rejected e)
  | Await r k =>
      let s := respond env r w in
      let rest := exec (k s.2) s.1 in
      mkRun (final rest) (Requested r :: trace rest) (outcome rest)
  | NewDate k =>
      let s := clock env w in
      exec (k s.2) s.1
  | ConsoleError msg k =>
      let rest := exec k w in
      mkRun (final rest) (Logged msg :: trace rest) (outcome rest)
  | Callback u k =>
      let s := invoke env u w in
      let rest := exec (k s.2) s.1 in
      mkRun (final rest) (Called u :: trace rest) (outcome rest)
  end.

End Exec.

(** The requests issued during a run, in order. *)
Definition requests (tr : list Effect) : list Request :=
  omap (fun e => match e with Requested r => Some r | _ => None end) tr.

(** The payloads sent to the [users] table for writing during a run. *)
Definition written (tr : list Effect) : list JsObj :=
  omap (fun e => match e with
                 | Requested (UsersUpsert row _) | Requested (UsersUpdate row _) => Some row
                 | _ => None
                 end) tr.

(** The arguments the callback was invoked with during a run. *)
Definition calls (tr : list Effect) : list (option TexaUser.t) :=
  omap (fun e => match e with Called u => Some u | _ => None end) tr.

(** ** Subscriptions and the scheduling of asynchronous tasks

    An [async] function runs synchronously up to its first [await] and
    is resumed later, when the awaited promise settles.  Invocations of
    the callback are recorded with the subscription they belong to and
    with what caused them: the initial query of [onAuthChange], or the
    n-th event pushed by the provider. *)

Inductive Origin : Type :=
| Initial
| Pushed (n : nat).

#[global] Instance Origin_eq_dec : EqDecision Origin.
Proof. solve_decision. Defined.

Record Task : Type := mkTask {
  owner : nat;
  origin : Origin;
  code : Prog unit
}.

Record Invocation : Type := mkInvocation {
  subscriber : nat;
  cause : Origin;
  argument : option TexaUser.t
}.

(** Modelled from the spec: the identity provider's
    [subscribeToSessionEvents(handler)], which returns an unsubscribe
    handle (section 6); its code, [supabase.auth.onAuthStateChange] of
    the Supabase client, is not part of the repository.  The provider
    keeps the registered subscriptions in [listeners], delivers a pushed
    event to each of them, and [unsubscribe] removes one. *)
Record State (World : Type) : Type := mkState {
  world : World;
  listeners : list nat;
  next_sub : nat;
  pushed : nat;
  pending : list Task;
  log : list Invocation
}.
Arguments mkState {World}.
Arguments world {World}.
Arguments listeners {World}.
Arguments next_sub {World}.
Arguments pushed {World}.
Arguments pending {World}.
Arguments log {World}.

Inductive Action : Type :=
| Subscribe
| Unsubscribe (sid : nat)
| Push (event : string) (session : option Session.t)
| Resume (i : nat).

Section Scheduler.
Context {World : Type} (env : Env World).

(** Runs [p] until it returns, throws or awaits; gives the world, the
    callback arguments in order, and the suspended rest if any. *)
Fixpoint run_sync (p : Prog unit) (w : World)
  : World * list (option TexaUser.t) * option (Prog unit) :=
  match p with
  | Ret _ | Throw _ => (w, [], None)
  | Await r k => (w, [], Some (Await r k))
  | NewDate k =>
      let s := clock env w in
      run_sync (k s.2) s.1
  | ConsoleError _ k => run_sync k w
  | Callback u k =>
      let s := invoke env u w in
      let r := run_sync (k s.2) s.1 in
      (r.1.1, u :: r.1.2, r.2)
  end.

(** Starts or continues a task. *)
Definition start (t : Task) (st : State World) : State World :=
  let r := run_sync (code t) (world st) in
  mkState r.1.1 (listeners st) (next_sub st) (pushed st)
    (pending st ++ match r.2 with
                   | Some rest => [mkTask (owner t) (origin t) rest]
                   | None => []
                   end)
    (log st ++ map (mkInvocation (owner t) (origin t)) r.1.2).

(** The awaited promise of a suspended program settles. *)
Definition settle_head (p : Prog unit) (w : World) : World * Prog unit :=
  match p with
  | Await r k => let s := respond env r w in (s.1, k s.2)
  | _ => (w, p)
  end.

Definition resume (i : nat) (st : State World) : State World :=
  match pending st !! i with
  | None => st
  | Some t =>
      let s := settle_head (code t) (world st) in
      start (mkTask (owner t) (origin t) s.2)
        (mkState s.1 (listeners st) (next_sub st) (pushed st)
           (delete i (pending st)) (log st))
  end.

(** [onAuthChange], lines 194-227: starts the initial query, registers
    the handler, and returns the function that unsubscribes, here the
    identifier that [unsubscribe] takes. *)
Definition onAuthChange (st : State World) : State World * nat :=
  let sid := next_sub st in
  let st1 := start (mkTask sid Initial initialUserTask) st in
  (mkState (world st1) (listeners st1 ++ [sid]) (S sid) (pushed st1)
     (pending st1) (log st1),
   sid).

(** The function returned by [onAuthChange]:
    [() => { subscription.unsubscribe(); }]. *)
Definition unsubscribe (sid : nat) (st : State World) : State World :=
  mkState (world st) (filter (fun x => x ≠ sid) (listeners st)) (next_sub st)
    (pushed st) (pending st) (log st).

(** Modelled from the spec: a state transition pushed by the provider
    ("invokes callback on every subsequent provider-pushed state
    transition").  The provider calls the handler of every registered
    subscription. *)
Definition push (event : string) (session : option Session.t) (st : State World)
  : State World :=
  let st1 :=
    foldl (fun s sid =>
             start (mkTask sid (Pushed (pushed st)) (authStateHandler event session)) s)
          st (listeners st) in
  mkState (world st1) (listeners st1) (next_sub st1) (S (pushed st))
    (pending st1) (log st1).

Definition step (st : State World) (a : Action) : State World :=
  match a with
  | Subscribe => (onAuthChange st).1
  | Unsubscribe sid => unsubscribe sid st
  | Push event session => push event session st
  | Resume i => resume i st
  end.

Definition steps (st : State World) (acts : list Action) : State World :=
  foldl step st acts.

Definition boot (w : World) : State World := mkState w [] 0 0 [] [].
End Scheduler.

(** The callback arguments of subscription [sid] caused by [o]. *)
Definition invocations {World : Type} (st : State World) (sid : nat) (o : Origin)
  : list (option TexaUser.t) :=
  argument <$> filter (fun i => subscriber i = sid ∧ cause i = o) (log st).

(** ** A reference environment

    A concrete environment on which the functions can be run: a store
    that is a map from ids to rows, with the answers of the identity
    provider, the readings of the clock and the faults of the store
    scripted in the world. *)

(** Modelled from the spec: the Profile Store ([getById], [upsert] by id
    with merge, [updateById]; section 6) and the Identity Provider, which
    are services outside the repository.  A write keeps the stored fields
    that the payload does not mention ("existing fields not included in
    the upsert payload are left untouched"), and a field whose value is
    [undefined] is not sent. *)
Module Backend.
Inductive Fault : Type :=
| Healthy
| Fails (msg : string)
| Throws (e : Exn).

Record World : Type := mkWorld {
  users : gmap string JsObj;
  provider : list (Outcome Auth.t);
  times : list string;
  faults : list Fault
}.

Definition sent (row : JsObj) : JsObj :=
  filter (fun kv => is_undefined kv.2 = false) row.

Definition select (columns : string) (row : JsObj) : JsObj :=
  if String.eqb columns "*" then row
  else filter (fun kv => kv.1 = columns) row.

Definition ok : Postgrest.t := Postgrest.mk None None.

(** What the store does when it is healthy. *)
Definition serve (r : Request) (db : gmap string JsObj)
  : gmap string JsObj * Postgrest.t :=
  match r with
  | UsersSelectSingle columns id =>
      match db !! id with
      | Some row => (db, Postgrest.mk (Some (select columns row)) None)
      | None => (db, Postgrest.mk None (Some "no rows returned"))
      end
  | UsersUpsert row _ =>
      match prop row "id" with
      | JStr id => (<[id := sent row ∪ default ∅ (db !! id)]> db, ok)
      | _ => (db, Postgrest.mk None (Some "null value in column id"))
      end
  | UsersUpdate row id => (alter (fun old => sent row ∪ old) id db, ok)
  | _ => (db, ok)
  end.

Definition store (r : Request) (w : World) : World * Outcome Postgrest.t :=
  match faults w with
  | Fails msg :: rest =>
      (mkWorld (users w) (provider w) (times w) rest,
       Resolved (Postgrest.mk None (Some msg)))
  | Throws e :: rest =>
      (mkWorld (users w) (provider w) (times w) rest, Rejected e)
  | _ =>
      let s := serve r (users w) in
      (mkWorld s.1 (provider w) (times w) (tail (faults w)), Resolved s.2)
  end.

Definition identity (w : World) : World * Outcome Auth.t :=
  match provider w with
  | o :: rest => (mkWorld (users w) rest (times w) (faults w), o)
  | [] => (w, Rejected {| message := Some "Failed to fetch" |})
  end.

Definition respond (r : Request) : World -> World * Outcome (Response r) :=
  match r with
  | AuthSignUp _ _ _ => identity
  | AuthGetUser => identity
  | UsersSelectSingle columns id => store (UsersSelectSingle columns id)
  | UsersUpsert row c => store (UsersUpsert row c)
  | UsersUpdate row id => store (UsersUpdate row id)
  end.

Definition clock (w : World) : World * string :=
  match times w with
  | t :: rest => (mkWorld (users w) (provider w) rest (faults w), t)
  | [] => (w, "1970-01-01T00:00:00.000Z")
  end.

Definition invoke (_ : option TexaUser.t) (w : World) : World * Outcome unit :=
  (w, Resolved tt).

Definition env : Env World := mkEnv World respond clock invoke.
End Backend.

(** ** The session functions of the facade

    [signIn], [signInWithGoogle], [signOut] and [getSession] begin with
    calls that the functions above do not make: the session calls of
    [supabase.auth], and the read of [window.location.origin].  Each of
    them makes these calls first and goes on as a program. *)

(** [{ error }]: the answer of [signOut] and of [signInWithOAuth] as far
    as it is read, and the result of [signOut] and [signInWithGoogle]. *)
Module OnlyError.
Record t : Type := mk { error : option string }.
End OnlyError.

(** [{ data: { session } }] of [supabase.auth.getSession()]. *)
Module SessionData.
Record t : Type := mk { session : option Session.t }.
End SessionData.

Inductive Call : Type :=
| SignInWithPassword (email password : string)
| SignInWithOAuth (provider redirectTo : string)
| SignOut
| GetSession
| WindowLocationOrigin.

Definition Answer (c : Call) : Type :=
  match c with
  | SignInWithPassword _ _ => Auth.t
  | SignInWithOAuth _ _ | SignOut => OnlyError.t
  | GetSession => SessionData.t
  | WindowLocationOrigin => string
  end.

Inductive Flow (A : Type) : Type :=
| Ask (c : Call) (k : Outcome (Answer c) -> Flow A)
| Then (p : Prog A).
Arguments Ask {A} c k.
Arguments Then {A} p.

(** [try { body } catch (error) { handler }] around a flow. *)
Fixpoint flow_try {A : Type} (body : Flow A) (handler : Exn -> Prog A) : Flow A :=
  match body with
  | Ask c k => Ask c (fun o => flow_try (k o) handler)
  | Then p => Then (try_catch p handler)
  end.

(** [signIn], lines 111-136. *)
Definition signIn (email password : string) : Flow SignResult.t :=
  flow_try
    (Ask (SignInWithPassword email password) (fun o =>
       Then (res ← settle o;
             match Auth.error res with
             | Some msg => Ret (SignResult.mk None (Some msg))
             | None =>
                 match Auth.user res with
                 | Some user =>
                     last_login ← now;
                     _ ← await (UsersUpdate (obj [("last_login", last_login)])
                                  (User.id user));
                     texaUser ← mapSupabaseUser (Some user);
                     Ret (SignResult.mk texaUser None)
                 | None => Ret (SignResult.mk None (Some "Sign in failed"))
                 end
             end)))
    (fun error => Ret (SignResult.mk None (Some (message_or error "Sign in failed")))).



(** [getSession], lines 172-180. *)
Definition getSession : Flow (option Session.t) :=
  flow_try
    (Ask GetSession (fun o =>
       Then (res ← settle o;
             Ret (SessionData.session res))))
    (fun _ =>
       _ ← console_error "Error getting session:";
       Ret None).

(** A run of a flow: the session calls made, then the run of the
    program it went on as. *)
Record FlowRun (World A : Type) : Type := mkFlowRun {
  asked : list Call;
  rest : Run World A
}.
Arguments mkFlowRun {World A}.
Arguments asked {World A}.
Arguments rest {World A}.

Section ExecFlow.
Context {World : Type} (env : Env World).
Context (answer : forall c : Call, World -> World * Outcome (Answer c)).

Fixpoint exec_flow {A : Type} (f : Flow A) (w : World) : FlowRun World A :=
  match f with
  | Ask c k =>
      let s := answer c w in
      let r := exec_flow (k s.2) s.1 in
      mkFlowRun (c :: asked r) (rest r)
  | Then p => mkFlowRun [] (exec env p w)
  end.
End ExecFlow.

(** Modelled from the spec: the Identity Provider's [authenticate],
    [initiateFederatedSignIn], [terminateSession] and
    [getCurrentSession] (section 6), which are outside the repository,
    and the browser's [window.location.origin].  The provider's answers
    are the scripted ones of the reference environment, read as each
    call reads them. *)
Module Browser.
Definition origin : string := "https://app.example.com".

Definition only_error (w : Backend.World) : Backend.World * Outcome OnlyError.t :=
  let s := Backend.identity w in
  (s.1, match s.2 with
        | Resolved a => Resolved (OnlyError.mk (Auth.error a))
        | Rejected e => Rejected e
        end).

Definition session (w : Backend.World) : Backend.World * Outcome SessionData.t :=
  let s := Backend.identity w in
  (s.1, match s.2 with
        | Resolved a =>
            Resolved (SessionData.mk
                        (match Auth.user a with
                         | Some u => Some (Session.mk (Some u))
                         | None => None
                         end))
        | Rejected e => Rejected e
        end).

Definition answer (c : Call) : Backend.World -> Backend.World * Outcome (Answer c) :=
  match c with
  | SignInWithPassword _ _ => Backend.identity
  | SignInWithOAuth _ _ => only_error
  | SignOut => only_error
  | GetSession => session
  | WindowLocationOrigin => fun w => (w, Resolved origin)
  end.
End Browser.

(** ** Vocabulary of the properties *)

(** The store answered with an error or without a record. *)
Definition no_record (o : Outcome Postgrest.t) : Prop :=
  ∃ res, o = Resolved res ∧ (is_Some (Postgrest.error res) ∨ Postgrest.data res = None).

(** The lookup failed unexpectedly: the awaited promise was rejected. *)
Definition threw (o : Outcome Postgrest.t) : Prop := ∃ e, o = Rejected e.

(** The store answered with the record [profile]. *)
Definition found (o : Outcome Postgrest.t) (profile : JsObj) : Prop :=
  o = Resolved (Postgrest.mk (Some profile) None).

(** A value that is [undefined] (an absent field reads so) or [null]. *)
Definition absent (v : JsVal) : Prop := v = JUndefined ∨ v = JNull.

(** The user that the session alone determines, given the time. *)
Definition session_defaults (u : User.t) (t : string) : TexaUser.t :=
  TexaUser.mk
    (JStr (User.id u))
    (JStr (default "" (User.email u)))
    (if truthy (User.metadata u "full_name") then User.metadata u "full_name"
     else match User.email u with
          | Some e => JStr (local_part e)
          | None => JStr ""
          end)
    (if truthy (User.metadata u "avatar_url") then User.metadata u "avatar_url"
     else JStr "")
    (JStr "MEMBER") (JBool true) JUndefined
    (JStr (User.created_at u)) (JStr t).

(** The user that the session alone determines when the lookup threw. *)
Definition session_minimum (u : User.t) : TexaUser.t :=
  TexaUser.mk
    (JStr (User.id u))
    (JStr (default "" (User.email u)))
    (if truthy (User.metadata u "full_name") then User.metadata u "full_name"
     else JStr "")
    (if truthy (User.metadata u "avatar_url") then User.metadata u "avatar_url"
     else JStr "")
    (JStr "MEMBER") (JBool true) JUndefined JUndefined JUndefined.

(** Field names of a [TexaUser] on the wire (section 6), each with the
    field it translates. *)
Definition wire_fields : list (string * (TexaUser.t -> JsVal)) :=
  [("id", TexaUser.id); ("email", TexaUser.email); ("name", TexaUser.name);
   ("photo_url", TexaUser.photoURL); ("role", TexaUser.role);
   ("is_active", TexaUser.isActive); ("subscription_end", TexaUser.subscriptionEnd);
   ("created_at", TexaUser.createdAt); ("last_login", TexaUser.lastLogin)].

(** The fields that a profile update may carry. *)
Definition updatable_fields : list (string * (TexaUser.t -> JsVal)) :=
  [("name", TexaUser.name); ("photo_url", TexaUser.photoURL); ("role", TexaUser.role);
   ("is_active", TexaUser.isActive); ("subscription_end", TexaUser.subscriptionEnd)].

(** The fields among [fields] that are present in [updates], under their
    wire names. *)
Definition present (fields : list (string * (TexaUser.t -> JsVal))) (updates : TexaUser.t)
  : JsObj :=
  list_to_map
    (filter (fun kv => is_undefined kv.2 = false)
            ((fun kf => (kf.1, kf.2 updates)) <$> fields)).

(** Subscription [sid] has been issued, and an event cause is one of the
    first [np] pushed events. *)
Definition bounded (ns np sid : nat) (o : Origin) : Prop :=
  sid < ns ∧ match o with Initial => True | Pushed n => n < np end.

(** Every task, invocation and listener refers to issued subscriptions
    and to past events; no subscription is registered twice. *)
Definition wf_at {World : Type} (ns np : nat) (st : State World) : Prop :=
  Forall (fun t => bounded ns np (owner t) (origin t)) (pending st)
  ∧ Forall (fun i => bounded ns np (subscriber i) (cause i)) (log st)
  ∧ Forall (fun sid => sid < ns) (listeners st)
  ∧ NoDup (listeners st).

Definition wf {World : Type} (st : State World) : Prop :=
  wf_at (next_sub st) (pushed st) st.

(** Nothing can invoke the callback of [sid] on account of [o] any more:
    no task for it is suspended, and none can be started. *)
Definition settled {World : Type} (st : State World) (sid : nat) (o : Origin) : Prop :=
  Forall (fun t => ¬ (owner t = sid ∧ origin t = o)) (pending st)
  ∧ sid < next_sub st
  ∧ match o with
    | Initial => True
    | Pushed n => n < pushed st ∨ sid ∉ listeners st
    end.

(** The provider answered with the user [u]; whether it also reported
    an error is not asked. *)
Definition gave_user (o : Outcome Auth.t) (u : User.t) : Prop :=
  ∃ a, o = Resolved a ∧ Auth.user a = Some u.

(** The provider answered with the user [u] and without an error. *)
Definition granted (o : Outcome Auth.t) (u : User.t) : Prop :=
  o = Resolved (Auth.mk (Some u) None).


(** The display name of a new profile: the given one unless it is
    missing or empty, else the local part of the email. *)
Definition display_name (name : option string) (email : string) : JsVal :=
  match name with
  | Some n => if String.eqb n "" then JStr (local_part email) else JStr n
  | None => JStr (local_part email)
  end.

(** A stored field after an update that carries [new] for it. *)
Definition updated (new old : JsVal) : JsVal :=
  if is_undefined new then old else new.

(** [at_most n p]: however its promises settle, the program [p] invokes
    the callback at most [n] times. *)
Inductive at_most {A : Type} : nat -> Prog A -> Prop :=
| at_most_ret n a : at_most n (Ret a)
| at_most_throw n e : at_most n (Throw e)
| at_most_await n r k : (∀ o, at_most n (k o)) -> at_most n (Await r k)
| at_most_date n k : (∀ t, at_most n (k t)) -> at_most n (NewDate k)
| at_most_log n msg k : at_most n k -> at_most n (ConsoleError msg k)
| at_most_call n u k : (∀ o, at_most n (k o)) -> at_most (S n) (Callback u k).

(** The task of subscription [sid] for the cause [o]. *)
Definition for_cause (sid : nat) (o : Origin) (t : Task) : Prop :=
  owner t = sid ∧ origin t = o.

(** The callback of [sid] has not been invoked for [o] and at most one
    task may still do so, once; or it has been invoked once and no task
    may do so again. *)
Definition quota {World : Type} (st : State World) (sid : nat) (o : Origin) : Prop :=
  (invocations st sid o = []
   ∧ length (filter (for_cause sid o) (pending st)) ≤ 1
   ∧ Forall (fun t => at_most 1 (code t)) (filter (for_cause sid o) (pending st)))
  ∨ (length (invocations st sid o) = 1
     ∧ Forall (fun t => at_most 0 (code t)) (filter (for_cause sid o) (pending st))).

(** ** Sample data *)

Definition alice : User.t :=
  User.mk "u1" (Some "a@example.com") None "2024-01-01T00:00:00.000Z".

(** A stored profile without a name. *)
Definition alice_row : JsObj :=
  obj [("id", JStr "u1"); ("email", JStr "a@example.com"); ("name", JNull)].

Definition empty_world : Backend.World := Backend.mkWorld ∅ [] [] [].

Definition alice_world : Backend.World :=
  Backend.mkWorld {["u1" := alice_row]} [] [] [].

(** The account that the identity provider reports for a sign-up with
    the address ["A@Example.com"]: it stores addresses in lower case. *)
Definition account : User.t :=
  User.mk "u2" (Some "a@example.com")
    (Some {["full_name" := JStr "A"]}) "2024-05-01T10:00:00.000Z".

Definition signup_world : Backend.World :=
  Backend.mkWorld ∅ [Resolved (Auth.mk (Some account) None)]
    ["2024-05-01T10:00:00.100Z"; "2024-05-01T10:00:00.101Z"] [].

(** A provider that reports the address as it was given. *)
Definition echo_world : Backend.World :=
  Backend.mkWorld ∅
    [Resolved (Auth.mk (Some (User.mk "u1" (Some "a@example.com")
                                (Some {["full_name" := JStr "a"]})
                                "2024-05-01T10:00:00.000Z")) None)]
    ["2024-05-01T10:00:00.100Z"; "2024-05-01T10:00:00.101Z"] [].

(** Partial inputs of [updateUserProfile]. *)
Definition only_email : TexaUser.t :=
  {| TexaUser.id := JUndefined; TexaUser.email := JStr "new@example.com";
     TexaUser.name := JUndefined; TexaUser.photoURL := JUndefined;
     TexaUser.role := JUndefined; TexaUser.isActive := JUndefined;
     TexaUser.subscriptionEnd := JUndefined; TexaUser.createdAt := JUndefined;
     TexaUser.lastLogin := JUndefined |}.

Definition only_name : TexaUser.t :=
  {| TexaUser.id := JUndefined; TexaUser.email := JUndefined;
     TexaUser.name := JStr "Ann"; TexaUser.photoURL := JUndefined;
     TexaUser.role := JUndefined; TexaUser.isActive := JUndefined;
     TexaUser.subscriptionEnd := JUndefined; TexaUser.createdAt := JUndefined;
     TexaUser.lastLogin := JUndefined |}.

Definition name_id_email : TexaUser.t :=
  {| TexaUser.id := JStr "u2"; TexaUser.email := JStr "new@example.com";
     TexaUser.name := JStr "Ann"; TexaUser.photoURL := JUndefined;
     TexaUser.role := JUndefined; TexaUser.isActive := JUndefined;
     TexaUser.subscriptionEnd := JUndefined; TexaUser.createdAt := JUndefined;
     TexaUser.lastLogin := JUndefined |}.

(** The store of [alice_world] when its next request fails. *)
Definition failing_world : Backend.World :=
  Backend.mkWorld {["u1" := alice_row]} [] [] [Backend.Fails "timeout"].

(** The store of [alice_world] with a clock that has a reading left. *)
Definition clocked_world : Backend.World :=
  Backend.mkWorld {["u1" := alice_row]} [] ["2024-05-01T10:00:00.000Z"] [].

(** One subscriber whose initial query has settled. *)
Definition subscribed : State Backend.World :=
  steps Backend.env (onAuthChange Backend.env (boot empty_world)).1 [Resume 0].

(** A sign-in that runs to its callback, then a sign-out. *)
Definition later : list Action :=
  [Push "SIGNED_IN" (Some (Session.mk (Some alice))); Resume 0; Resume 0;
   Push "SIGNED_OUT" None].

(** A change of role and name, nothing else. *)
Definition promote_ann : TexaUser.t :=
  {| TexaUser.id := JUndefined; TexaUser.email := JUndefined;
     TexaUser.name := JStr "Ann"; TexaUser.photoURL := JUndefined;
     TexaUser.role := JStr "ADMIN"; TexaUser.isActive := JUndefined;
     TexaUser.subscriptionEnd := JUndefined; TexaUser.createdAt := JUndefined;
     TexaUser.lastLogin := JUndefined |}.

(** A store that already holds an inactive administrator under the id
    of [account], and a provider that grants the next sign-up. *)
Definition admin_world : Backend.World :=
  Backend.mkWorld
    {["u2" := obj [("id", JStr "u2"); ("role", JStr "ADMIN"); ("is_active", JBool false)]]}
    [Resolved (Auth.mk (Some account) None)]
    ["2024-05-01T10:00:00.100Z"; "2024-05-01T10:00:00.101Z"] [].



(** A store that holds [alice]'s profile with a role and an old
    last login, and a provider that grants the next call for her. *)
Definition returning_world : Backend.World :=
  Backend.mkWorld
    {["u1" := obj [("id", JStr "u1"); ("email", JStr "a@example.com");
                   ("role", JStr "ADMIN");
                   ("last_login", JStr "2024-01-01T00:00:00.000Z")]]}
    [Resolved (Auth.mk (Some alice) None)]
    ["2024-05-01T10:00:00.100Z"] [].


(** The provider has an open session of [alice]. *)
Definition session_world : Backend.World :=
  Backend.mkWorld ∅ [Resolved (Auth.mk (Some alice) None)] [] [].

(** * Properties *)

(** ** JavaScript operators *)

Lemma js_or_truthy (a b : JsVal) : truthy a = true -> js_or a b = a.
Proof. unfold js_or. by intros ->. Qed.

Lemma js_or_falsy (a b : JsVal) : truthy a = false -> js_or a b = b.
Proof. unfold js_or. by intros ->. Qed.

Lemma js_or_absent (a b : JsVal) : absent a -> js_or a b = b.
Proof. by intros [-> | ->]. Qed.

Lemma js_nullish_absent (a b : JsVal) : absent a -> js_nullish a b = b.
Proof. by intros [-> | ->]. Qed.

Lemma js_or_str_empty (s : string) : js_or (JStr s) (JStr "") = JStr s.
Proof.
  unfold js_or; cbn. destruct (String.eqb_spec s "") as [-> | _]; reflexivity.
Qed.

Lemma js_or_opt_str_empty (o : option string) :
  js_or (opt_str o) (JStr "") = JStr (default "" o).
Proof. destruct o as [s|]; [apply js_or_str_empty | reflexivity]. Qed.

Lemma js_strict_eq_true (a b : JsVal) : js_strict_eq a b = true <-> a = b.
Proof. unfold js_strict_eq. apply bool_decide_eq_true. Qed.

(** [split('@')[0]] is the local part. *)
Lemma split_head (s : string) : split "@" s !! 0%nat = Some (local_part s).
Proof.
  induction s as [|c r IH]; [reflexivity|].
  cbn [split local_part]. destruct (Ascii.eqb c "@"); [reflexivity|].
  destruct (split "@" r) as [|h t]; [discriminate IH|].
  cbn in IH |- *. congruence.
Qed.

Lemma split_at_0_local_part (email : string) : split_at_0 email = JStr (local_part email).
Proof. unfold split_at_0. by rewrite split_head. Qed.

(** ** The reconciler *)

Section Reconciler.
Context {World : Type} (env : Env World).

(** What [mapSupabaseUser] returns when the store has no record. *)
Lemma defaults_literal (u : User.t) (t : string) :
  {| TexaUser.id := JStr (User.id u);
     TexaUser.email := js_or (opt_str (User.email u)) (JStr "");
     TexaUser.name :=
       js_or (js_or (User.metadata u "full_name") (opt_split_at_0 (User.email u)))
             (JStr "");
     TexaUser.photoURL := js_or (User.metadata u "avatar_url") (JStr "");
     TexaUser.role := JStr "MEMBER";
     TexaUser.isActive := JBool true;
     TexaUser.subscriptionEnd := JUndefined;
     TexaUser.createdAt := JStr (User.created_at u);
     TexaUser.lastLogin := JStr t |} = session_defaults u t.
Proof.
  unfold session_defaults. f_equal.
  - apply js_or_opt_str_empty.
  - destruct (truthy (User.metadata u "full_name")) eqn:Hfn.
    + by rewrite (js_or_truthy _ _ Hfn), (js_or_truthy _ _ Hfn).
    + rewrite (js_or_falsy _ _ Hfn). destruct (User.email u) as [e|]; cbn.
      * rewrite split_at_0_local_part. apply js_or_str_empty.
      * reflexivity.
Qed.

Lemma minimum_literal (u : User.t) :
  {| TexaUser.id := JStr (User.id u);
     TexaUser.email := js_or (opt_str (User.email u)) (JStr "");
     TexaUser.name := js_or (User.metadata u "full_name") (JStr "");
     TexaUser.photoURL := js_or (User.metadata u "avatar_url") (JStr "");
     TexaUser.role := JStr "MEMBER";
     TexaUser.isActive := JBool true;
     TexaUser.subscriptionEnd := JUndefined;
     TexaUser.createdAt := JUndefined;
     TexaUser.lastLogin := JUndefined |} = session_minimum u.
Proof. unfold session_minimum. f_equal. apply js_or_opt_str_empty. Qed.

(** The three ways a lookup can end. *)
Lemma lookup_cases (o : Outcome Postgrest.t) :
  (∃ profile, found o profile) ∨ no_record o ∨ threw o.
Proof.
  destruct o as [[[p|] [m|]]|e]; unfold found, no_record, threw; eauto 8.
Qed.

Lemma mapSupabaseUser_no_record (w : World) (u : User.t) :
  let s := respond env (UsersSelectSingle "*" (User.id u)) w in
  no_record s.2 ->
  outcome (exec env (mapSupabaseUser (Some u)) w)
  = Resolved (Some (session_defaults u (clock env s.1).2)).
Proof.
  cbn. destruct (respond env _ w) as [w1 o]; cbn.
  intros (res & -> & Hres). cbn.
  destruct res as [[p|] [m|]]; cbn; rewrite ?defaults_literal; try reflexivity.
  destruct Hres as [[? [=]] | [=]].
Qed.

Lemma mapSupabaseUser_threw (w : World) (u : User.t) :
  threw (respond env (UsersSelectSingle "*" (User.id u)) w).2 ->
  outcome (exec env (mapSupabaseUser (Some u)) w) = Resolved (Some (session_minimum u)).
Proof.
  cbn. destruct (respond env _ w) as [w1 o]; cbn.
  intros (e & ->). cbn. by rewrite minimum_literal.
Qed.

Lemma mapSupabaseUser_found (w : World) (u : User.t) (profile : JsObj) :
  let s := respond env (UsersSelectSingle "*" (User.id u)) w in
  found s.2 profile ->
  ∃ lastLogin,
    outcome (exec env (mapSupabaseUser (Some u)) w)
    = Resolved (Some {|
        TexaUser.id := prop profile "id";
        TexaUser.email :=
          js_or (js_or (prop profile "email") (opt_str (User.email u))) (JStr "");
        TexaUser.name :=
          js_or (js_or (prop profile "name") (User.metadata u "full_name")) (JStr "");
        TexaUser.photoURL :=
          js_or (js_or (prop profile "photo_url") (User.metadata u "avatar_url"))
                (JStr "");
        TexaUser.role := js_or (prop profile "role") (JStr "MEMBER");
        TexaUser.isActive := js_nullish (prop profile "is_active") (JBool true);
        TexaUser.subscriptionEnd := prop profile "subscription_end";
        TexaUser.createdAt := prop profile "created_at";
        TexaUser.lastLogin := lastLogin |}).
Proof.
  cbn. destruct (respond env _ w) as [w1 o]; cbn. intros ->. cbn.
  unfold or_else. destruct (truthy (prop profile "last_login")); cbn; eauto.
Qed.
End Reconciler.

(** ** The facade's queries and updates *)

Section Facade.
Context {World : Type} (env : Env World).

Lemma getUserById_found (w : World) (userId : string) (data : JsObj) :
  found (respond env (UsersSelectSingle "*" userId) w).2 data ->
  outcome (exec env (getUserById userId) w)
  = Resolved (Some {|
      TexaUser.id := prop data "id";
      TexaUser.email := prop data "email";
      TexaUser.name := prop data "name";
      TexaUser.photoURL := prop data "photo_url";
      TexaUser.role := js_or (prop data "role") (JStr "MEMBER");
      TexaUser.isActive := js_nullish (prop data "is_active") (JBool true);
      TexaUser.subscriptionEnd := prop data "subscription_end";
      TexaUser.createdAt := prop data "created_at";
      TexaUser.lastLogin := prop data "last_login" |}).
Proof.
  cbn. destruct (respond env _ w) as [w1 o]; cbn. by intros ->.
Qed.

Lemma getUserById_not_found (w : World) (userId : string) :
  let o := (respond env (UsersSelectSingle "*" userId) w).2 in
  no_record o ∨ threw o ->
  outcome (exec env (getUserById userId) w) = Resolved None.
Proof.
  cbn. destruct (respond env _ w) as [w1 o]; cbn.
  intros [(res & -> & Hres) | (e & ->)]; cbn; [|reflexivity].
  destruct res as [[p|] [m|]]; cbn; try reflexivity.
  destruct Hres as [[? [=]] | [=]].
Qed.

(** The object built by the five guarded assignments. *)
Lemma updateData_present (updates : TexaUser.t) :
  updateData updates = present updatable_fields updates.
Proof.
  destruct updates as [i e n p r a s c l].
  unfold updateData, assign_defined, present, updatable_fields. cbn.
  destruct (is_undefined n), (is_undefined p), (is_undefined r),
    (is_undefined a), (is_undefined s); reflexivity.
Qed.

Lemma present_updatable_frame (updates : TexaUser.t) (k : string) :
  k ∉ ["name"; "photo_url"; "role"; "is_active"; "subscription_end"] ->
  present updatable_fields updates !! k = None.
Proof.
  intros Hk. unfold present. apply not_elem_of_list_to_map_1.
  intros Hin. apply Hk. revert Hin.
  rewrite !list_elem_of_fmap. intros ([k' v] & -> & Hin).
  apply list_elem_of_filter in Hin as [_ Hin].
  apply list_elem_of_fmap in Hin as ([k'' f] & [= -> _] & Hin).
  cbn. unfold updatable_fields in Hin.
  repeat (apply elem_of_cons in Hin as [[= -> _] | Hin]; [set_solver|]).
  by apply elem_of_nil in Hin.
Qed.

Lemma exec_updateUserProfile (w : World) (userId : string) (updates : TexaUser.t) :
  let run := exec env (updateUserProfile userId updates) w in
  let o := (respond env (UsersUpdate (updateData updates) userId) w).2 in
  requests (trace run) = [UsersUpdate (updateData updates) userId]
  ∧ outcome run
    = Resolved (match o with
                | Resolved res =>
                    match Postgrest.error res with Some _ => false | None => true end
                | Rejected _ => false
                end).
Proof.
  cbn. destruct (respond env _ w) as [w1 [res|e]]; cbn; [|done].
  destruct (Postgrest.error res); done.
Qed.
End Facade.

(** ** The facade on the reference environment *)

Lemma backend_getUserById (w : Backend.World) (userId : string) :
  let run := exec Backend.env (getUserById userId) w in
  Backend.users (final run) = Backend.users w
  ∧ Backend.times (final run) = Backend.times w
  ∧ ∀ a, outcome run = Resolved (Some a) ->
      ∃ data, Backend.users w !! userId = Some data
        ∧ a = {| TexaUser.id := prop data "id";
                 TexaUser.email := prop data "email";
                 TexaUser.name := prop data "name";
                 TexaUser.photoURL := prop data "photo_url";
                 TexaUser.role := js_or (prop data "role") (JStr "MEMBER");
                 TexaUser.isActive := js_nullish (prop data "is_active") (JBool true);
                 TexaUser.subscriptionEnd := prop data "subscription_end";
                 TexaUser.createdAt := prop data "created_at";
                 TexaUser.lastLogin := prop data "last_login" |}.
Proof.
  destruct w as [db pr ts fs]. cbn. unfold Backend.store; cbn.
  destruct fs as [|[| msg | e] fs]; cbn;
    try (destruct (db !! userId) as [row|] eqn:Hrow; cbn);
    (split; [reflexivity|]); (split; [reflexivity|]);
    intros a [=]; subst; eauto.
Qed.

Lemma sent_lookup_None (row : JsObj) (k : string) :
  row !! k = None -> Backend.sent row !! k = None.
Proof.
  intros Hk. unfold Backend.sent. apply map_lookup_filter_None. left. exact Hk.
Qed.

Lemma backend_update_keeps (db : gmap string JsObj) (row : JsObj) (userId i k : string) :
  row !! k = None ->
  (Backend.serve (UsersUpdate row userId) db).1 !! i ≫= (.!! k) = db !! i ≫= (.!! k).
Proof.
  intros Hk. cbn. rewrite lookup_alter. case_decide as Hi; [|reflexivity].
  subst i. destruct (db !! userId) as [old|]; [|reflexivity]. cbn.
  rewrite lookup_union_r; [reflexivity|]. by apply sent_lookup_None.
Qed.

Lemma backend_updateUserProfile_keeps (w : Backend.World) (userId : string)
    (updates : TexaUser.t) (i k : string) :
  updateData updates !! k = None ->
  Backend.users (final (exec Backend.env (updateUserProfile userId updates) w)) !! i
    ≫= (.!! k)
  = Backend.users w !! i ≫= (.!! k).
Proof.
  intros Hk. destruct w as [db pr ts fs]. cbn. unfold Backend.store; cbn.
  destruct fs as [|[| msg | e] fs]; cbn; try reflexivity;
    by apply (backend_update_keeps db _ userId).
Qed.

(** The result of [getUserById] is a function of the store's answer. *)
Lemma getUserById_answer_only {W1 W2 : Type} (env1 : Env W1) (env2 : Env W2)
    (w1 : W1) (w2 : W2) (userId : string) :
  (respond env1 (UsersSelectSingle "*" userId) w1).2
  = (respond env2 (UsersSelectSingle "*" userId) w2).2 ->
  outcome (exec env1 (getUserById userId) w1) = outcome (exec env2 (getUserById userId) w2).
Proof.
  cbn. destruct (respond env1 _ w1) as [w1' o1], (respond env2 _ w2) as [w2' o2]; cbn.
  intros ->. destruct o2 as [[[p|] [m|]]|e]; reflexivity.
Qed.

(** ** Sign-up *)

Lemma mapSupabaseUser_writes_nothing {World : Type} (env : Env World) (w : World)
    (user : option User.t) :
  written (trace (exec env (mapSupabaseUser user) w)) = [].
Proof.
  destruct user as [u|]; [|reflexivity]. cbn.
  destruct (respond env _ w) as [w1 [[[p|] [m|]]|e]]; cbn; try reflexivity.
  unfold or_else. destruct (truthy (prop p "last_login")); reflexivity.
Qed.

Lemma signUp_upsert {World : Type} (env : Env World) (w : World) (email password : string)
    (u : User.t) :
  (respond env (AuthSignUp email password (JStr (local_part email))) w).2
  = Resolved (Auth.mk (Some u) None) ->
  ∃ created_at last_login,
    written (trace (exec env (signUp email password None) w))
    = [obj [("id", JStr (User.id u));
            ("email", opt_str (User.email u));
            ("name", JStr (local_part email));
            ("role", JStr "MEMBER");
            ("is_active", JBool true);
            ("created_at", JStr created_at);
            ("last_login", JStr last_login)]].
Proof.
  unfold signUp. cbn. rewrite !split_at_0_local_part.
  destruct (respond env _ w) as [w1 o]; cbn. intros ->. cbn.
  destruct (clock env w1) as [w2 t1]; cbn.
  destruct (clock env w2) as [w3 t2]; cbn.
  exists t1, t2.
  destruct (respond env _ w3) as [w4 [res|e]]; cbn; [|reflexivity].
  f_equal.
  pose proof (mapSupabaseUser_writes_nothing env w4 (Some u)) as Hmap.
  cbn in Hmap.
  destruct (respond env (UsersSelectSingle "*" (User.id u)) w4) as [w5 [[[p|] [m|]]|e]];
    cbn in Hmap |- *; try exact Hmap; try reflexivity.
  unfold or_else in *. destruct (truthy (prop p "last_login")); cbn in Hmap |- *; done.
Qed.

(** ** Subscriptions *)

Section Subscriptions.
Context {World : Type} (env : Env World).

(** The invocations of one task carry its tag. *)
Lemma tagged_same (sid : nat) (o : Origin) (cs : list (option TexaUser.t)) :
  argument <$> filter (fun i => subscriber i = sid ∧ cause i = o)
                      (map (mkInvocation sid o) cs) = cs.
Proof.
  induction cs as [|c cs IH]; [reflexivity|].
  cbn [map]. rewrite filter_cons_True by done. cbn. by rewrite IH.
Qed.

Lemma tagged_other (sid sid' : nat) (o o' : Origin) (cs : list (option TexaUser.t)) :
  ¬ (sid' = sid ∧ o' = o) ->
  filter (fun i => subscriber i = sid ∧ cause i = o) (map (mkInvocation sid' o') cs) = [].
Proof.
  intros Hne. induction cs as [|c cs IH]; [reflexivity|].
  cbn [map]. by rewrite filter_cons_False.
Qed.

Lemma invocations_start_same t (st : State World) :
  invocations (start env t st) (owner t) (origin t)
  = invocations st (owner t) (origin t) ++ (run_sync env (code t) (world st)).1.2.
Proof.
  unfold invocations, start; cbn. by rewrite filter_app, fmap_app, tagged_same.
Qed.

Lemma invocations_start_other t (st : State World) (sid : nat) (o : Origin) :
  ¬ (owner t = sid ∧ origin t = o) ->
  invocations (start env t st) sid o = invocations st sid o.
Proof.
  intros Hne. unfold invocations, start; cbn.
  by rewrite filter_app, tagged_other, app_nil_r.
Qed.

Lemma start_pending_other t (st : State World) (sid : nat) (o : Origin) :
  ¬ (owner t = sid ∧ origin t = o) ->
  Forall (fun t' => ¬ (owner t' = sid ∧ origin t' = o)) (pending st) ->
  Forall (fun t' => ¬ (owner t' = sid ∧ origin t' = o)) (pending (start env t st)).
Proof.
  intros Hne Hall. unfold start; cbn. apply Forall_app. split; [exact Hall|].
  destruct (run_sync env (code t) (world st)).2;
    [by apply Forall_singleton | apply Forall_nil_2].
Qed.

Lemma start_pending_done t (st : State World) (P : Task -> Prop) :
  (run_sync env (code t) (world st)).2 = None ->
  Forall P (pending st) -> Forall P (pending (start env t st)).
Proof.
  intros Hdone Hall. unfold start; cbn. rewrite Hdone. by rewrite app_nil_r.
Qed.

(** *** Well-formedness of reachable states *)

Lemma bounded_mono (ns np ns' np' sid : nat) (o : Origin) :
  ns ≤ ns' -> np ≤ np' -> bounded ns np sid o -> bounded ns' np' sid o.
Proof. intros ? ? [? Ho]. split; [lia|]. destruct o; [done | lia]. Qed.

Lemma wf_at_start (ns np : nat) t (st : State World) :
  bounded ns np (owner t) (origin t) -> wf_at ns np st -> wf_at ns np (start env t st).
Proof.
  intros Ht (Hp & Hl & Hs & Hd). unfold wf_at, start; cbn.
  split_and!; [| |done|done].
  - apply Forall_app. split; [done|].
    destruct (run_sync env (code t) (world st)).2;
      [by apply Forall_singleton | apply Forall_nil_2].
  - apply Forall_app. split; [done|].
    apply Forall_forall. intros i Hi. apply list_elem_of_fmap in Hi as (c & -> & _).
    exact Ht.
Qed.

Lemma wf_at_fold (ns np n : nat) (h : Prog unit) (ls : list nat) (st : State World) :
  n < np -> Forall (fun sid => sid < ns) ls -> wf_at ns np st ->
  wf_at ns np (foldl (fun s sid => start env (mkTask sid (Pushed n) h) s) st ls).
Proof.
  intros Hn Hls. revert st. induction Hls as [|sid ls Hsid _ IH]; intros st Hwf; [done|].
  cbn. apply IH. apply wf_at_start; [|done]. by split.
Qed.

Lemma fold_start_frame (f : nat -> Task) (ls : list nat) (st : State World) :
  let st' := foldl (fun s sid => start env (f sid) s) st ls in
  listeners st' = listeners st ∧ next_sub st' = next_sub st ∧ pushed st' = pushed st.
Proof.
  revert st. induction ls as [|x ls IH]; intros st; [done|].
  cbn. destruct (IH (start env (f x) st)) as (-> & -> & ->). done.
Qed.

Lemma wf_at_mono (ns np ns' np' : nat) (st : State World) :
  ns ≤ ns' -> np ≤ np' -> wf_at ns np st -> wf_at ns' np' st.
Proof.
  intros Hns Hnp (Hp & Hl & Hs & Hd). split_and!; [| | |done].
  - eapply Forall_impl; [exact Hp|]. intros t. by apply bounded_mono.
  - eapply Forall_impl; [exact Hl|]. intros t. by apply bounded_mono.
  - eapply Forall_impl; [exact Hs|]. cbn. lia.
Qed.

Lemma wf_step (st : State World) (a : Action) : wf st -> wf (step env st a).
Proof.
  unfold wf. intros Hwf. destruct a as [|sid|event session|i]; cbn.
  - (* Subscribe *)
    assert (wf_at (S (next_sub st)) (pushed st)
              (start env (mkTask (next_sub st) Initial initialUserTask) st))
      as (Hp & Hl & Hs & Hd).
    { apply wf_at_start; [split; [cbn; lia | done]|].
      eapply wf_at_mono; [| |exact Hwf]; lia. }
    split_and!; cbn; [done|done| |].
    + apply Forall_app. split; [done|]. apply Forall_singleton. lia.
    + apply NoDup_app. split_and!; [done| |apply NoDup_singleton].
      intros x Hx Hx'. apply list_elem_of_singleton in Hx'. subst x.
      destruct Hwf as (_ & _ & Hs' & _).
      rewrite Forall_forall in Hs'. specialize (Hs' _ Hx). lia.
  - (* Unsubscribe *)
    destruct Hwf as (Hp & Hl & Hs & Hd). split_and!; cbn; [done|done| |].
    + apply Forall_forall. intros x Hx. apply list_elem_of_filter in Hx as [_ Hx].
      rewrite Forall_forall in Hs. by apply Hs.
    + by apply NoDup_filter.
  - (* Push *)
    destruct (fold_start_frame
                (fun sid => mkTask sid (Pushed (pushed st))
                              (authStateHandler event session))
                (listeners st) st) as (Hls & Hns & _).
    cbn in Hls, Hns. rewrite Hns.
    assert (wf_at (next_sub st) (S (pushed st))
              (foldl (fun s sid =>
                        start env (mkTask sid (Pushed (pushed st))
                                     (authStateHandler event session)) s)
                     st (listeners st)))
      as (Hp & Hl & Hs & Hd).
    { destruct Hwf as (Hp & Hl & Hs & Hd).
      apply wf_at_fold; [lia|done|].
      eapply wf_at_mono; [| |split_and!; eassumption]; lia. }
    split_and!; done.
  - (* Resume *)
    unfold resume. destruct (pending st !! i) as [t|] eqn:Ht; [|exact Hwf].
    destruct Hwf as (Hp & Hl & Hs & Hd).
    apply (wf_at_start (next_sub st) (pushed st)); cbn.
    + exact (Forall_lookup_1 _ _ _ _ Hp Ht).
    + split_and!; cbn; [by apply Forall_delete|done|done|done].
Qed.

Lemma wf_steps (st : State World) (acts : list Action) : wf st -> wf (steps env st acts).
Proof.
  revert st. induction acts as [|a acts IH]; intros st Hwf; [done|].
  change (steps env st (a :: acts)) with (steps env (step env st a) acts).
  apply IH. by apply wf_step.
Qed.

Lemma wf_boot (w : World) : wf (boot w).
Proof. split_and!; constructor. Qed.

(** In a well-formed state the future has left no trace. *)
Lemma wf_future_silent (st : State World) (sid n : nat) :
  wf st -> pushed st ≤ n ->
  invocations st sid (Pushed n) = []
  ∧ Forall (fun t => ¬ (owner t = sid ∧ origin t = Pushed n)) (pending st).
Proof.
  intros (Hp & Hl & _ & _) Hn. split.
  - unfold invocations. induction Hl as [|i l [_ Hi] _ IH]; [done|].
    rewrite filter_cons_False; [exact IH|].
    intros [_ Hc]. rewrite Hc in Hi. lia.
  - eapply Forall_impl; [exact Hp|]. cbn. intros t [_ Ht] [_ Ho].
    rewrite Ho in Ht. lia.
Qed.

(** *** Settled causes stay settled *)

Lemma settled_start t (st : State World) (sid : nat) (o : Origin) :
  ¬ (owner t = sid ∧ origin t = o) ->
  settled st sid o ->
  settled (start env t st) sid o
  ∧ invocations (start env t st) sid o = invocations st sid o.
Proof.
  intros Hne (Hp & Hs & Ho). split; [|by apply invocations_start_other].
  split_and!; [by apply start_pending_other|done|done].
Qed.

Lemma settled_step (st : State World) (a : Action) (sid : nat) (o : Origin) :
  settled st sid o ->
  settled (step env st a) sid o
  ∧ invocations (step env st a) sid o = invocations st sid o.
Proof.
  intros Hst. destruct a as [|sid'|event session|i]; cbn.
  - (* Subscribe: the new subscription has a fresh identifier *)
    destruct (settled_start (mkTask (next_sub st) Initial initialUserTask) st sid o)
      as ((Hp & Hs & Ho) & Hinv); [|done|].
    { cbn. destruct Hst as (_ & Hs & _). lia. }
    split; [|exact Hinv]. split_and!; cbn; [done|cbn in Hs; lia|].
    destruct o as [|n]; [done|]. destruct Ho as [Ho | Ho]; [by left | right].
    cbn in Ho. intros Hin. apply elem_of_app in Hin as [Hin | Hin]; [done|].
    apply list_elem_of_singleton in Hin. destruct Hst as (_ & Hlt & _). lia.
  - (* Unsubscribe *)
    destruct Hst as (Hp & Hs & Ho). split; [|done].
    split_and!; cbn; [done|done|].
    destruct o as [|n]; [done|]. destruct Ho as [Ho | Ho]; [by left | right].
    intros Hin. apply list_elem_of_filter in Hin as [_ Hin]. done.
  - (* Push: the new tasks belong to listeners and to the new event *)
    pose (f := fun x => mkTask x (Pushed (pushed st)) (authStateHandler event session)).
    change (settled (push env event session st) sid o
            ∧ invocations (push env event session st) sid o = invocations st sid o).
    assert (∀ ls s,
               (∀ x, x ∈ ls -> ¬ (x = sid ∧ Pushed (pushed st) = o)) ->
               settled s sid o ->
               settled (foldl (fun s x => start env (f x) s) s ls) sid o
               ∧ invocations (foldl (fun s x => start env (f x) s) s ls) sid o
                 = invocations s sid o) as Hfold.
    { induction ls as [|x ls IH]; intros s Hls Hs; [done|]. cbn.
      destruct (settled_start (f x) s sid o) as [Hs' Hinv]; [|done|].
      { cbn. apply Hls. by left. }
      destruct (IH (start env (f x) s)) as [Hs'' Hinv'']; [|done|].
      { intros y Hy. apply Hls. by right. }
      split; [done|]. by rewrite Hinv''. }
    destruct (Hfold (listeners st) st) as [(Hp & Hs & Ho) Hinv]; [|done|].
    { intros x Hx [-> Heq]. subst o. destruct Hst as (_ & _ & [Hlt | Hnot]); [lia|done]. }
    destruct (fold_start_frame f (listeners st) st) as (Hls & Hns & Hps).
    cbn in Hls, Hns, Hps. unfold push.
    change (fun s sid0 => start env (mkTask sid0 (Pushed (pushed st))
                                       (authStateHandler event session)) s)
      with (fun s x => start env (f x) s).
    split; [|exact Hinv].
    unfold settled. cbn [pending next_sub listeners pushed].
    split_and!; [exact Hp|exact Hs|].
    destruct o as [|n]; [done|]. rewrite Hls, Hps in Ho.
    destruct Ho as [Ho | Ho]; [left; lia | right; by rewrite Hls].
  - (* Resume: the resumed task was not one of [sid] for [o] *)
    unfold resume. destruct (pending st !! i) as [t|] eqn:Ht; [|done].
    destruct Hst as (Hp & Hs & Ho).
    destruct (settled_start
                (mkTask (owner t) (origin t) (settle_head env (code t) (world st)).2)
                (mkState (settle_head env (code t) (world st)).1 (listeners st)
                   (next_sub st) (pushed st) (delete i (pending st)) (log st))
                sid o) as [Hst' Hinv].
    + exact (Forall_lookup_1 _ _ _ _ Hp Ht).
    + split_and!; cbn; [by apply Forall_delete|done|done].
    + split; [exact Hst'|]. by rewrite Hinv.
Qed.

Lemma settled_steps (st : State World) (acts : list Action) (sid : nat) (o : Origin) :
  settled st sid o ->
  invocations (steps env st acts) sid o = invocations st sid o.
Proof.
  revert st. induction acts as [|a acts IH]; intros st Hst; [done|].
  change (steps env st (a :: acts)) with (steps env (step env st a) acts).
  destruct (settled_step st a sid o Hst) as [Hst' Hinv].
  by rewrite (IH _ Hst').
Qed.
(** *** What the handler does before its first [await] *)

Lemma handler_signed_out (session : option Session.t) (w : World) :
  (run_sync env (authStateHandler "SIGNED_OUT" session) w).1.2 = [None]
  ∧ (run_sync env (authStateHandler "SIGNED_OUT" session) w).2 = None.
Proof. cbn. destruct (invoke env None w) as [w1 [[]|e]]; cbn; done. Qed.

Lemma handler_ignored (event : string) (session : option Session.t) :
  event ∉ ["SIGNED_IN"; "TOKEN_REFRESHED"; "SIGNED_OUT"] ->
  authStateHandler event session = Ret tt.
Proof.
  intros Hev. unfold authStateHandler.
  destruct (String.eqb_spec event "SIGNED_IN") as [-> | _];
    [exfalso; apply Hev; compute_done|].
  destruct (String.eqb_spec event "TOKEN_REFRESHED") as [-> | _];
    [exfalso; apply Hev; compute_done|].
  destruct (String.eqb_spec event "SIGNED_OUT") as [-> | _];
    [exfalso; apply Hev; compute_done|].
  reflexivity.
Qed.

(** *** Delivery of one event *)

Lemma deliver_absent (h : Prog unit) (n sid : nat) (o : Origin) (ls : list nat)
    (st : State World) :
  (sid ∉ ls ∨ o ≠ Pushed n) ->
  Forall (fun t => ¬ (owner t = sid ∧ origin t = o)) (pending st) ->
  let st' := foldl (fun s x => start env (mkTask x (Pushed n) h) s) st ls in
  invocations st' sid o = invocations st sid o
  ∧ Forall (fun t => ¬ (owner t = sid ∧ origin t = o)) (pending st').
Proof.
  revert st. induction ls as [|x ls IH]; intros st Hsid Hp; [done|]. cbn.
  assert (¬ (x = sid ∧ Pushed n = o)) as Hne.
  { intros [-> <-]. destruct Hsid as [Hsid | Hsid]; [|done]. apply Hsid. by left. }
  destruct (IH (start env (mkTask x (Pushed n) h) st)) as [Hinv Hp'].
  - destruct Hsid as [Hsid | Hsid]; [left | by right].
    intros Hin. apply Hsid. by right.
  - by apply start_pending_other.
  - split; [|exact Hp']. cbv zeta in Hinv. rewrite Hinv.
    by apply invocations_start_other.
Qed.

Lemma deliver_once (h : Prog unit) (cs : list (option TexaUser.t)) (n sid : nat)
    (ls : list nat) (st : State World) :
  (∀ w, (run_sync env h w).1.2 = cs ∧ (run_sync env h w).2 = None) ->
  NoDup ls -> sid ∈ ls ->
  Forall (fun t => ¬ (owner t = sid ∧ origin t = Pushed n)) (pending st) ->
  let st' := foldl (fun s x => start env (mkTask x (Pushed n) h) s) st ls in
  invocations st' sid (Pushed n) = invocations st sid (Pushed n) ++ cs
  ∧ Forall (fun t => ¬ (owner t = sid ∧ origin t = Pushed n)) (pending st').
Proof.
  intros Hh Hnd. revert st. induction Hnd as [|x ls Hx Hnd IH]; intros st Hin Hp.
  { by apply elem_of_nil in Hin. }
  cbn. destruct (decide (x = sid)) as [-> | Hne].
  - destruct (deliver_absent h n sid (Pushed n) ls
                (start env (mkTask sid (Pushed n) h) st)) as [Hinv Hp'].
    + by left.
    + apply start_pending_done; [apply Hh | exact Hp].
    + split; [|exact Hp']. cbv zeta in Hinv. rewrite Hinv.
      pose proof (invocations_start_same (mkTask sid (Pushed n) h) st) as Hsame.
      cbn [owner origin code] in Hsame. rewrite Hsame.
      by rewrite (proj1 (Hh (world st))).
  - apply elem_of_cons in Hin as [-> | Hin]; [done|].
    destruct (IH (start env (mkTask x (Pushed n) h) st) Hin) as [Hinv Hp'].
    + apply start_pending_other; [|exact Hp]. cbn. intros [? _]. done.
    + split; [|exact Hp']. cbv zeta in Hinv. rewrite Hinv.
      rewrite invocations_start_other; [done|]. cbn. intros [? _]. done.
Qed.

(** A handler that finishes without awaiting adds its invocations, once
    per listening subscription, and leaves the event settled. *)
Lemma push_quiet (st : State World) (event : string) (session : option Session.t)
    (cs : list (option TexaUser.t)) (sid : nat) :
  wf st -> sid < next_sub st ->
  (∀ w, (run_sync env (authStateHandler event session) w).1.2 = cs
        ∧ (run_sync env (authStateHandler event session) w).2 = None) ->
  settled (push env event session st) sid (Pushed (pushed st))
  ∧ invocations (push env event session st) sid (Pushed (pushed st))
    = if decide (sid ∈ listeners st) then cs else [].
Proof.
  intros Hwf Hsid Hh.
  destruct (wf_future_silent st sid (pushed st) Hwf) as [Hsilent Hp]; [lia|].
  destruct (fold_start_frame
              (fun x => mkTask x (Pushed (pushed st)) (authStateHandler event session))
              (listeners st) st) as (_ & Hns & _). cbn in Hns.
  unfold push, settled, invocations. cbn [pending next_sub listeners pushed log].
  rewrite Hns. destruct (decide (sid ∈ listeners st)) as [Hin | Hout].
  - destruct (deliver_once (authStateHandler event session) cs (pushed st) sid
                (listeners st) st Hh) as [Hinv Hp']; [apply Hwf|done|done|].
    cbv zeta in Hinv, Hp'. unfold invocations in Hinv, Hsilent.
    rewrite Hsilent in Hinv. split_and!; [done|done|left; lia|done].
  - destruct (deliver_absent (authStateHandler event session) (pushed st) sid
                (Pushed (pushed st)) (listeners st) st) as [Hinv Hp']; [by left|done|].
    cbv zeta in Hinv, Hp'. unfold invocations in Hinv, Hsilent.
    rewrite Hsilent in Hinv. split_and!; [done|done|left; lia|done].
Qed.

Lemma next_sub_step (st : State World) (a : Action) :
  next_sub st ≤ next_sub (step env st a).
Proof.
  destruct a as [|sid|event session|i]; cbn; [lia|lia| |].
  - destruct (fold_start_frame
                (fun x => mkTask x (Pushed (pushed st)) (authStateHandler event session))
                (listeners st) st) as (_ & Hns & _). cbn in Hns. lia.
  - unfold resume. destruct (pending st !! i); cbn; lia.
Qed.

Lemma next_sub_steps (st : State World) (acts : list Action) :
  next_sub st ≤ next_sub (steps env st acts).
Proof.
  revert st. induction acts as [|a acts IH]; intros st; [done|].
  change (steps env st (a :: acts)) with (steps env (step env st a) acts).
  pose proof (next_sub_step st a). pose proof (IH (step env st a)). lia.
Qed.

(** After [unsubscribe], later events are settled from the start. *)
Lemma unsubscribe_settled (st : State World) (sid n : nat) :
  wf st -> sid < next_sub st -> pushed st ≤ n ->
  settled (unsubscribe sid st) sid (Pushed n)
  ∧ invocations (unsubscribe sid st) sid (Pushed n) = [].
Proof.
  intros Hwf Hsid Hn.
  destruct (wf_future_silent st sid n Hwf Hn) as [Hsilent Hp].
  split; [|exact Hsilent]. split_and!; cbn; [done|done|right].
  intros Hin. apply list_elem_of_filter in Hin as [Hne _]. done.
Qed.
End Subscriptions.

(** ** The handler run to completion *)

Lemma handler_signed_out_calls {World : Type} (env : Env World) (w : World)
    (session : option Session.t) :
  calls (trace (exec env (authStateHandler "SIGNED_OUT" session) w)) = [None]
  ∧ written (trace (exec env (authStateHandler "SIGNED_OUT" session) w)) = [].
Proof. cbn. destruct (invoke env None w) as [w1 [[]|e]]; done. Qed.

Lemma handler_ignored_calls {World : Type} (env : Env World) (w : World)
    (event : string) (session : option Session.t) :
  event ∉ ["SIGNED_IN"; "TOKEN_REFRESHED"; "SIGNED_OUT"] ->
  trace (exec env (authStateHandler event session) w) = [].
Proof. intros Hev. by rewrite (handler_ignored event session Hev). Qed.

(** The stored-profile branch resolves the name without the email. *)
Lemma mapSupabaseUser_found_name {World : Type} (env : Env World) (w : World)
    (u : User.t) (profile : JsObj) :
  found (respond env (UsersSelectSingle "*" (User.id u)) w).2 profile ->
  truthy (prop profile "name") = false ->
  truthy (User.metadata u "full_name") = false ->
  ∃ x, outcome (exec env (mapSupabaseUser (Some u)) w) = Resolved (Some x)
     ∧ TexaUser.name x = JStr "".
Proof.
  intros Hfound Hname Hfull.
  destruct (mapSupabaseUser_found env w u profile Hfound) as [t Ht].
  eexists. split; [exact Ht|]. cbn.
  by rewrite (js_or_falsy _ _ Hname), (js_or_falsy _ _ Hfull).
Qed.

(** ** The model at work *)

Example split_example : split "@" "a@b@c" = ["a"; "b"; "c"].
Proof. reflexivity. Qed.

Example split_no_separator : split "@" "nobody" = ["nobody"].
Proof. reflexivity. Qed.

(** A sign-in pushed before the unsubscription is still in flight when
    the subscriber leaves; its callback runs once the lookup and the
    upsert have settled.  Unsubscribing cancels no started lookup. *)
Example in_flight_event_survives_unsubscribe :
  invocations
    (steps Backend.env (boot alice_world)
       [Subscribe; Push "SIGNED_IN" (Some (Session.mk (Some alice)));
        Unsubscribe 0; Resume 1; Resume 1])
    0 (Pushed 0)
  = [Some {| TexaUser.id := JStr "u1";
             TexaUser.email := JStr "a@example.com";
             TexaUser.name := JStr "";
             TexaUser.photoURL := JStr "";
             TexaUser.role := JStr "MEMBER";
             TexaUser.isActive := JBool true;
             TexaUser.subscriptionEnd := JUndefined;
             TexaUser.createdAt := JUndefined;
             TexaUser.lastLogin := JStr "1970-01-01T00:00:00.000Z" |}].
Proof. vm_compute. reflexivity. Qed.

(** The session-changed handler heals the missing name of the stored
    profile: the upsert writes the local part of the email. *)
Example handler_upserts_local_part :
  Backend.users
    (world (steps Backend.env (boot alice_world)
              [Subscribe; Push "SIGNED_IN" (Some (Session.mk (Some alice)));
               Resume 1; Resume 1]))
    !! "u1" ≫= (.!! "name")
  = Some (JStr "a").
Proof. vm_compute. reflexivity. Qed.

(** * The claims *)

(** C1 (defect in the code).  The name is specified to fall back from
    the stored profile name to the provider's full name, then to the
    local part of the email, then to the empty string.  With a stored
    profile whose name is null and a session without a full name,
    [mapSupabaseUser] returns the empty string although the local part of
    the session's email is ["a"]: the stored-profile branch leaves out
    the step that the no-profile branch has. *)
Theorem mapSupabaseUser_stored_name_skips_local_part :
  found (respond Backend.env (UsersSelectSingle "*" (User.id alice)) alice_world).2 alice_row
  ∧ absent (prop alice_row "name")
  ∧ absent (User.metadata alice "full_name")
  ∧ opt_split_at_0 (User.email alice) = JStr "a"
  ∧ ∃ x, outcome (exec Backend.env (mapSupabaseUser (Some alice)) alice_world)
         = Resolved (Some x)
       ∧ TexaUser.name x = JStr "".
Proof.
  split_and!; [reflexivity | by right | by left | reflexivity |].
  eexists. split; [vm_compute; reflexivity | reflexivity].
Qed.

(** C2.  [mapSupabaseUser] returns null exactly when its input is null;
    for a non-null input it never raises, and when the store answers
    with an error or without a record, or the lookup throws, it returns
    a user built from the session's fields alone. *)
Theorem mapSupabaseUser_total {World : Type} (env : Env World) (w : World)
    (user : option User.t) :
  ∃ r, outcome (exec env (mapSupabaseUser user) w) = Resolved r
     ∧ (r = None ↔ user = None)
     ∧ ∀ u, user = Some u ->
         let s := respond env (UsersSelectSingle "*" (User.id u)) w in
         (no_record s.2 -> r = Some (session_defaults u (clock env s.1).2))
         ∧ (threw s.2 -> r = Some (session_minimum u)).
Proof.
  destruct user as [u|].
  - destruct (lookup_cases (respond env (UsersSelectSingle "*" (User.id u)) w).2)
      as [[profile Hfound] | [Hnone | Hthrew]].
    + destruct (mapSupabaseUser_found env w u profile Hfound) as [t Ht].
      eexists. split; [exact Ht|]. split; [done|].
      intros u' [= <-]. cbv zeta. unfold found in Hfound. rewrite Hfound.
      split; [intros (res & [= <-] & [[? [=]] | [=]]) | intros (e & [=])].
    + pose proof (mapSupabaseUser_no_record env w u Hnone) as Hrun.
      eexists. split; [exact Hrun|]. split; [done|].
      intros u' [= <-]. cbv zeta. split; [done|].
      destruct Hnone as (res & Hres & _). rewrite Hres. intros (e & [=]).
    + pose proof (mapSupabaseUser_threw env w u Hthrew) as Hrun.
      eexists. split; [exact Hrun|]. split; [done|].
      intros u' [= <-]. cbv zeta. split; [|done].
      destruct Hthrew as (e & He). rewrite He. intros (res & [=] & _).
  - exists None. split; [reflexivity|]. split; [done|]. intros u [=].
Qed.

Lemma mapSupabaseUser_total_witness :
  ∃ r, outcome (exec Backend.env (mapSupabaseUser (Some alice)) empty_world) = Resolved r
     ∧ r = Some (session_defaults alice "1970-01-01T00:00:00.000Z").
Proof.
  destruct (mapSupabaseUser_total Backend.env empty_world (Some alice))
    as (r & Hrun & _ & Hfail).
  exists r. split; [exact Hrun|].
  apply (Hfail alice eq_refl).
  eexists. split; [reflexivity | right; reflexivity].
Defined.

(** C5.  For a session without a matching stored profile (the lookup
    errors, returns no record, or throws) the reconciler returns a
    non-null user with role MEMBER that is active. *)
Theorem mapSupabaseUser_no_profile_defaults {World : Type} (env : Env World) (w : World)
    (u : User.t) :
  let o := (respond env (UsersSelectSingle "*" (User.id u)) w).2 in
  no_record o ∨ threw o ->
  ∃ x, outcome (exec env (mapSupabaseUser (Some u)) w) = Resolved (Some x)
     ∧ TexaUser.role x = JStr "MEMBER"
     ∧ TexaUser.isActive x = JBool true.
Proof.
  intros o [Hnone | Hthrew].
  - eexists. split; [by apply mapSupabaseUser_no_record|]. done.
  - eexists. split; [by apply mapSupabaseUser_threw|]. done.
Qed.

Lemma mapSupabaseUser_no_profile_defaults_witness :
  ∃ x, outcome (exec Backend.env (mapSupabaseUser (Some alice)) empty_world)
       = Resolved (Some x)
     ∧ TexaUser.role x = JStr "MEMBER"
     ∧ TexaUser.isActive x = JBool true.
Proof.
  apply (mapSupabaseUser_no_profile_defaults Backend.env empty_world alice).
  left. eexists. split; [reflexivity | right; reflexivity].
Defined.

(** C6.  A stored profile whose role is absent or null maps to role
    MEMBER, and one whose is_active is absent or null maps to an active
    user, both in [mapSupabaseUser] and in [getUserById]. *)
Theorem stored_profile_defaults {World : Type} (env : Env World) (w : World)
    (u : User.t) (userId : string) (profile : JsObj) :
  (found (respond env (UsersSelectSingle "*" (User.id u)) w).2 profile ->
   ∃ x, outcome (exec env (mapSupabaseUser (Some u)) w) = Resolved (Some x)
      ∧ (absent (prop profile "role") -> TexaUser.role x = JStr "MEMBER")
      ∧ (absent (prop profile "is_active") -> TexaUser.isActive x = JBool true))
  ∧ (found (respond env (UsersSelectSingle "*" userId) w).2 profile ->
     ∃ x, outcome (exec env (getUserById userId) w) = Resolved (Some x)
        ∧ (absent (prop profile "role") -> TexaUser.role x = JStr "MEMBER")
        ∧ (absent (prop profile "is_active") -> TexaUser.isActive x = JBool true)).
Proof.
  split; intros Hfound.
  - destruct (mapSupabaseUser_found env w u profile Hfound) as [t Ht].
    eexists. split; [exact Ht|]. cbn.
    split; [apply js_or_absent | apply js_nullish_absent].
  - eexists. split; [by apply getUserById_found|]. cbn.
    split; [apply js_or_absent | apply js_nullish_absent].
Qed.

Lemma stored_profile_defaults_witness :
  (∃ x, outcome (exec Backend.env (mapSupabaseUser (Some alice)) alice_world)
        = Resolved (Some x)
      ∧ TexaUser.role x = JStr "MEMBER" ∧ TexaUser.isActive x = JBool true)
  ∧ (∃ x, outcome (exec Backend.env (getUserById "u1") alice_world) = Resolved (Some x)
        ∧ TexaUser.role x = JStr "MEMBER" ∧ TexaUser.isActive x = JBool true).
Proof.
  destruct (stored_profile_defaults Backend.env alice_world alice "u1" alice_row)
    as [Hmap Hget].
  split.
  - destruct (Hmap eq_refl) as (x & Hrun & Hrole & Hactive).
    exists x. split_and!; [exact Hrun | apply Hrole; by left | apply Hactive; by left].
  - destruct (Hget eq_refl) as (x & Hrun & Hrole & Hactive).
    exists x. split_and!; [exact Hrun | apply Hrole; by left | apply Hactive; by left].
Defined.

(** C8.  [isAdmin] never throws; it returns false when the lookup
    errors, returns no record or throws, and it returns true exactly
    when the stored role is the string ["ADMIN"]. *)
Theorem isAdmin_spec {World : Type} (env : Env World) (w : World) (userId : string) :
  let o := (respond env (UsersSelectSingle "role" userId) w).2 in
  ∃ b, outcome (exec env (isAdmin userId) w) = Resolved b
     ∧ (no_record o ∨ threw o -> b = false)
     ∧ (b = true ↔ ∃ data, found o data ∧ prop data "role" = JStr "ADMIN").
Proof.
  cbn. destruct (respond env _ w) as [w1 o]; cbn.
  destruct o as [[[data|] [msg|]]|e]; cbn; eexists; (split; [reflexivity|]).
  - split; [done|]. split; [done|]. intros (d & [=] & _).
  - split.
    + intros [(res & [= <-] & [[? [=]] | [=]]) | (e & [=])].
    + rewrite js_strict_eq_true. split.
      * intros Hrole. by exists data.
      * by intros (d & [= <-] & Hrole).
  - split; [done|]. split; [done|]. intros (d & [=] & _).
  - split; [done|]. split; [done|]. intros (d & [=] & _).
  - split; [done|]. split; [done|]. intros (d & [=] & _).
Qed.

Lemma isAdmin_spec_witness :
  outcome (exec Backend.env (isAdmin "u1") empty_world) = Resolved false.
Proof.
  destruct (isAdmin_spec Backend.env empty_world "u1") as (b & Hrun & Hfalse & _).
  rewrite Hrun. f_equal. apply Hfalse.
  left. eexists. split; [reflexivity | right; reflexivity].
Defined.

(** C9.  Two calls of [getUserById] on the same store state yield the
    same user, field for field, whatever the time and whatever else
    differs between the two worlds; the call itself does not write to
    the store and does not read the clock. *)
Theorem getUserById_idempotent (w1 w2 : Backend.World) (userId : string)
    (a b : TexaUser.t) :
  Backend.users w1 = Backend.users w2 ->
  outcome (exec Backend.env (getUserById userId) w1) = Resolved (Some a) ->
  outcome (exec Backend.env (getUserById userId) w2) = Resolved (Some b) ->
  a = b
  ∧ Backend.users (final (exec Backend.env (getUserById userId) w1)) = Backend.users w1
  ∧ Backend.times (final (exec Backend.env (getUserById userId) w1)) = Backend.times w1.
Proof.
  intros Hdb Ha Hb.
  destruct (backend_getUserById w1 userId) as (Hkeep & Htime & Hget1).
  destruct (backend_getUserById w2 userId) as (_ & _ & Hget2).
  destruct (Hget1 a Ha) as (d1 & Hd1 & ->).
  destruct (Hget2 b Hb) as (d2 & Hd2 & ->).
  rewrite Hdb, Hd2 in Hd1. injection Hd1 as ->. done.
Qed.

(** The same store read twice, the second time in the world that the
    first call left. *)
Lemma getUserById_idempotent_witness :
  ∃ a b, outcome (exec Backend.env (getUserById "u1") clocked_world) = Resolved (Some a)
       ∧ outcome (exec Backend.env (getUserById "u1")
                    (final (exec Backend.env (getUserById "u1") clocked_world)))
         = Resolved (Some b)
       ∧ a = b.
Proof.
  eexists _, _. split; [reflexivity|]. split; [reflexivity|].
  refine (proj1 (getUserById_idempotent clocked_world
                   (final (exec Backend.env (getUserById "u1") clocked_world))
                   "u1" _ _ _ _ _)); reflexivity.
Defined.

(** C4 as stated fails: a partial input that carries an email is
    answered with an update that carries nothing, not with the email
    under its wire name. *)
Lemma updateUserProfile_drops_email :
  present wire_fields only_email = {["email" := JStr "new@example.com"]}
  ∧ written (trace (exec Backend.env (updateUserProfile "u1" only_email) alice_world))
    = [∅]
  ∧ written (trace (exec Backend.env (updateUserProfile "u1" only_email) alice_world))
    ≠ [present wire_fields only_email].
Proof.
  split; [reflexivity|]. split; [reflexivity|].
  intros Heq. apply (f_equal (fun l : list JsObj => l !! 0 ≫= (.!! "email"))) in Heq.
  vm_compute in Heq. discriminate Heq.
Qed.

(** C4, amended.  [updateUserProfile] issues one request, an update of
    the row [userId] whose payload holds exactly those of name,
    photoURL, role, isActive and subscriptionEnd that are present in the
    partial input, under their wire names; it never throws, and it
    returns true only if the store answers without an error. *)
Theorem updateUserProfile_payload {World : Type} (env : Env World) (w : World)
    (userId : string) (updates : TexaUser.t) :
  let run := exec env (updateUserProfile userId updates) w in
  let o := (respond env (UsersUpdate (present updatable_fields updates) userId) w).2 in
  requests (trace run) = [UsersUpdate (present updatable_fields updates) userId]
  ∧ ∃ b, outcome run = Resolved b
       ∧ ((threw o ∨ ∃ res, o = Resolved res ∧ is_Some (Postgrest.error res)) -> b = false)
       ∧ (b = true ↔ ∃ res, o = Resolved res ∧ Postgrest.error res = None).
Proof.
  rewrite <- updateData_present.
  destruct (exec_updateUserProfile env w userId updates) as [Hreq Hout].
  cbv zeta in Hreq, Hout |- *. split; [exact Hreq|].
  eexists. split; [exact Hout|].
  destruct ((respond env (UsersUpdate (updateData updates) userId) w).2) as [res|e].
  - destruct (Postgrest.error res) as [msg|] eqn:Herr.
    + split; [done|]. split; [done|]. intros (res' & [= <-] & Hnone). congruence.
    + split.
      * intros [(e & [=]) | (res' & [= <-] & [msg Hmsg])]. congruence.
      * split; [|done]. intros _. by exists res.
  - split; [done|]. split; [done|]. intros (res & [=] & _).
Qed.

Lemma updateUserProfile_payload_witness :
  requests (trace (exec Backend.env (updateUserProfile "u1" only_name) failing_world))
  = [UsersUpdate {["name" := JStr "Ann"]} "u1"]
  ∧ outcome (exec Backend.env (updateUserProfile "u1" only_name) failing_world)
    = Resolved false.
Proof.
  destruct (updateUserProfile_payload Backend.env failing_world "u1" only_name)
    as (Hreq & b & Hrun & Hfalse & _).
  split; [exact Hreq|]. rewrite Hrun. f_equal. apply Hfalse.
  right. eexists. split; [reflexivity | by eexists].
Defined.

(** C10.  The payload of [updateUserProfile] never carries id, email,
    created_at or last_login, whatever the partial input holds; on the
    reference store the stored email, id, created_at and last_login of
    every row are therefore the same after the call as before. *)
Theorem updateUserProfile_frame :
  (∀ (World : Type) (env : Env World) (w : World) (userId : string)
     (updates : TexaUser.t),
     ∃ payload,
       written (trace (exec env (updateUserProfile userId updates) w)) = [payload]
       ∧ payload !! "email" = None ∧ payload !! "id" = None
       ∧ payload !! "created_at" = None ∧ payload !! "last_login" = None)
  ∧ (∀ (w : Backend.World) (userId : string) (updates : TexaUser.t) (i k : string),
       k ∈ ["email"; "id"; "created_at"; "last_login"] ->
       Backend.users (final (exec Backend.env (updateUserProfile userId updates) w)) !! i
         ≫= (.!! k)
       = Backend.users w !! i ≫= (.!! k)).
Proof.
  split.
  - intros World env w userId updates. exists (updateData updates). split.
    + cbn. destruct (respond env _ w) as [w1 [res|e]]; cbn; [|done].
      destruct (Postgrest.error res); done.
    + rewrite updateData_present.
      split_and!; apply present_updatable_frame; compute_done.
  - intros w userId updates i k Hk. apply backend_updateUserProfile_keeps.
    rewrite updateData_present. apply present_updatable_frame.
    rewrite !elem_of_cons in Hk.
    destruct Hk as [-> | [-> | [-> | [-> | Hk]]]];
      [compute_done.. | by apply elem_of_nil in Hk].
Qed.

Lemma updateUserProfile_frame_witness :
  Backend.users (final (exec Backend.env (updateUserProfile "u1" name_id_email)
                          alice_world)) !! "u1" ≫= (.!! "email")
  = Some (JStr "a@example.com")
  ∧ Backend.users (final (exec Backend.env (updateUserProfile "u1" name_id_email)
                            alice_world)) !! "u1" ≫= (.!! "name")
    = Some (JStr "Ann").
Proof.
  split; [|reflexivity].
  rewrite (proj2 updateUserProfile_frame alice_world "u1" name_id_email "u1" "email");
    [reflexivity | by left].
Defined.

(** C7 as stated fails: the row carries the email of the account that
    the provider returns, which need not be the email given to
    [signUp]. *)
Lemma signUp_email_is_the_providers :
  (respond Backend.env (AuthSignUp "A@Example.com" "pw" (JStr "A")) signup_world).2
  = Resolved (Auth.mk (Some account) None)
  ∧ ∃ row,
      written (trace (exec Backend.env (signUp "A@Example.com" "pw" None) signup_world))
      = [row]
      ∧ prop row "name" = JStr "A"
      ∧ prop row "email" = JStr "a@example.com"
      ∧ prop row "email" ≠ JStr "A@Example.com".
Proof.
  split; [reflexivity|]. eexists. split; [vm_compute; reflexivity|].
  split; [reflexivity|]. split; [reflexivity|]. discriminate.
Qed.

(** C7, amended.  [signUp] called without a display name, when the
    identity provider succeeds, upserts one profile row whose name is
    the local part of the given email, whose email is the email of the
    account that the provider returned (the given email whenever the
    provider returns it unchanged), with role MEMBER and is_active
    true. *)
Theorem signUp_profile_row {World : Type} (env : Env World) (w : World)
    (email password : string) (u : User.t) :
  (respond env (AuthSignUp email password (JStr (local_part email))) w).2
  = Resolved (Auth.mk (Some u) None) ->
  ∃ row,
    written (trace (exec env (signUp email password None) w)) = [row]
    ∧ prop row "id" = JStr (User.id u)
    ∧ prop row "name" = JStr (local_part email)
    ∧ prop row "email" = opt_str (User.email u)
    ∧ (User.email u = Some email -> prop row "email" = JStr email)
    ∧ prop row "role" = JStr "MEMBER"
    ∧ prop row "is_active" = JBool true.
Proof.
  intros Hok. destruct (signUp_upsert env w email password u Hok) as (t1 & t2 & Hrow).
  eexists. split; [exact Hrow|].
  split_and!; try reflexivity. by intros ->.
Qed.

Lemma signUp_profile_row_witness :
  ∃ row,
    written (trace (exec Backend.env (signUp "a@example.com" "pw" None) echo_world))
    = [row]
    ∧ prop row "name" = JStr "a"
    ∧ prop row "email" = JStr "a@example.com"
    ∧ prop row "role" = JStr "MEMBER"
    ∧ prop row "is_active" = JBool true.
Proof.
  destruct (signUp_profile_row Backend.env echo_world "a@example.com" "pw"
              (User.mk "u1" (Some "a@example.com") (Some {["full_name" := JStr "a"]})
                 "2024-05-01T10:00:00.000Z") eq_refl)
    as (row & Hrow & _ & Hname & _ & Hemail & Hrole & Hactive).
  exists row. split_and!; [exact Hrow | exact Hname | by apply Hemail | exact Hrole
                          | exact Hactive].
Defined.

(** C3.  Let [sid] be the subscription made by a call of [onAuthChange]
    and [st] a later state.  A signed-out event pushed while [sid] is
    registered invokes its callback exactly once, with null; an event of
    a kind other than signed-in, token-refreshed and signed-out invokes
    it not at all; and once the function returned by [onAuthChange] has
    been called, no event pushed afterwards invokes it, however the
    run goes on. *)
Theorem onAuthChange_events {World : Type} (env : Env World) (w : World)
    (before during after : list Action) (event : string) (session : option Session.t) :
  let sub := onAuthChange env (steps env (boot w) before) in
  let sid := sub.2 in
  let st := steps env sub.1 during in
  (sid ∈ listeners st ->
   invocations (steps env (push env "SIGNED_OUT" session st) after) sid (Pushed (pushed st))
   = [None])
  ∧ (event ∉ ["SIGNED_IN"; "TOKEN_REFRESHED"; "SIGNED_OUT"] ->
     invocations (steps env (push env event session st) after) sid (Pushed (pushed st))
     = [])
  ∧ (∀ n, pushed st ≤ n ->
       invocations (steps env (unsubscribe sid st) after) sid (Pushed n) = []).
Proof.
  intros sub sid st.
  assert (wf st) as Hwf.
  { apply wf_steps. apply (wf_step env _ Subscribe). apply wf_steps, wf_boot. }
  assert (sid < next_sub st) as Hsid.
  { pose proof (next_sub_steps env sub.1 during) as Hmono.
    fold st in Hmono. subst sub sid. cbn in Hmono |- *. lia. }
  split_and!.
  - intros Hin.
    destruct (push_quiet env st "SIGNED_OUT" session [None] sid Hwf Hsid)
      as [Hsettled Hinv]; [apply handler_signed_out|].
    rewrite (settled_steps env _ after sid _ Hsettled), Hinv.
    by rewrite decide_True.
  - intros Hev.
    destruct (push_quiet env st event session [] sid Hwf Hsid) as [Hsettled Hinv].
    { intros w'. by rewrite (handler_ignored event session Hev). }
    rewrite (settled_steps env _ after sid _ Hsettled), Hinv.
    by destruct (decide (sid ∈ listeners st)).
  - intros n Hn.
    destruct (unsubscribe_settled st sid n Hwf Hsid Hn) as [Hsettled Hinv].
    by rewrite (settled_steps env _ after sid _ Hsettled).
Qed.

(** One subscriber on the reference environment: after its initial
    query has settled, a signed-out event, an event of another kind,
    and an unsubscription followed by a sign-in and a sign-out. *)
Lemma onAuthChange_events_witness :
  invocations (steps Backend.env (push Backend.env "SIGNED_OUT" None subscribed) later)
    0 (Pushed 0) = [None]
  ∧ invocations (steps Backend.env (push Backend.env "USER_UPDATED" None subscribed) later)
      0 (Pushed 0) = []
  ∧ invocations (steps Backend.env (unsubscribe 0 subscribed) later) 0 (Pushed 0) = []
  ∧ invocations (steps Backend.env (unsubscribe 0 subscribed) later) 0 (Pushed 1) = [].
Proof.
  destruct (onAuthChange_events Backend.env empty_world [] [Resume 0] later
              "USER_UPDATED" None) as (Hout & Hother & Hunsub).
  split_and!.
  - apply Hout. compute_done.
  - apply Hother. compute_done.
  - apply Hunsub. compute_done.
  - apply Hunsub. compute_done.
Defined.

(** * Further properties *)

(** ** How runs compose *)

Section Compose.
Context {World : Type} (env : Env World).

Lemma exec_bind {A B : Type} (p : Prog A) (f : A -> Prog B) (w : World) :
  exec env (bind p f) w
  = match outcome (exec env p w) with
    | Resolved a =>
        mkRun (final (exec env (f a) (final (exec env p w))))
          (trace (exec env p w) ++ trace (exec env (f a) (final (exec env p w))))
          (outcome (exec env (f a) (final (exec env p w))))
    | Rejected e => mkRun (final (exec env p w)) (trace (exec env p w)) (Rejected e)
    end.
Proof.
  revert w. induction p as [a | e | r k IH | k IH | msg k IH | u k IH]; intros w; cbn.
  - by destruct (exec env (f a) w).
  - reflexivity.
  - rewrite IH. by destruct (outcome (exec env (k _) _)).
  - apply IH.
  - rewrite IH. by destruct (outcome (exec env k w)).
  - rewrite IH. by destruct (outcome (exec env (k _) _)).
Qed.

Lemma exec_try_catch {A : Type} (p : Prog A) (h : Exn -> Prog A) (w : World) :
  exec env (try_catch p h) w
  = match outcome (exec env p w) with
    | Resolved a => exec env p w
    | Rejected e =>
        mkRun (final (exec env (h e) (final (exec env p w))))
          (trace (exec env p w) ++ trace (exec env (h e) (final (exec env p w))))
          (outcome (exec env (h e) (final (exec env p w))))
    end.
Proof.
  revert w. induction p as [a | e | r k IH | k IH | msg k IH | u k IH]; intros w; cbn.
  - reflexivity.
  - by destruct (exec env (h e) w).
  - rewrite IH. by destruct (exec env (k _) _) as [w' tr [a|e]].
  - apply IH.
  - rewrite IH. by destruct (exec env k w) as [w' tr [a|e]].
  - rewrite IH. by destruct (exec env (k _) _) as [w' tr [a|e]].
Qed.

(** A non-null user is always mapped to a non-null user. *)
Lemma mapSupabaseUser_some (w : World) (u : User.t) :
  ∃ x, outcome (exec env (mapSupabaseUser (Some u)) w) = Resolved (Some x).
Proof.
  destruct (lookup_cases (respond env (UsersSelectSingle "*" (User.id u)) w).2)
    as [[profile Hfound] | [Hnone | Hthrew]].
  - destruct (mapSupabaseUser_found env w u profile Hfound) as [t Ht]. eauto.
  - eexists. by apply mapSupabaseUser_no_record.
  - eexists. by apply mapSupabaseUser_threw.
Qed.

Lemma mapSupabaseUser_trace (w : World) (user : option User.t) :
  ∃ logged,
    trace (exec env (mapSupabaseUser user) w)
    = match user with
      | Some u => Requested (UsersSelectSingle "*" (User.id u)) :: logged
      | None => []
      end
    ∧ requests logged = [] ∧ calls logged = [].
Proof.
  destruct user as [u|]; [|by exists []]. cbn.
  destruct (respond env _ w) as [w1 [[[p|] [m|]]|e]]; cbn;
    try (by eexists; split; [reflexivity|]).
  unfold or_else. destruct (truthy (prop p "last_login")); cbn;
    by eexists; split; [reflexivity|].
Qed.
End Compose.

Arguments mapSupabaseUser : simpl never.

Lemma js_or_default_defined (a : JsVal) (s : string) : ¬ absent (js_or a (JStr s)).
Proof.
  unfold js_or. destruct (truthy a) eqn:Ha; [|by intros [|]].
  intros [-> | ->]; discriminate Ha.
Qed.

Lemma js_nullish_defined (a b : JsVal) : ¬ absent b -> ¬ absent (js_nullish a b).
Proof. intros Hb. destruct a; cbn; try done; by intros [|]. Qed.

(** ** The reconciler, further *)

Lemma mapSupabaseUser_quiet {World : Type} (env : Env World) (w : World)
    (user : option User.t) :
  requests (trace (exec env (mapSupabaseUser user) w))
  = match user with
    | Some u => [UsersSelectSingle "*" (User.id u)]
    | None => []
    end
  ∧ written (trace (exec env (mapSupabaseUser user) w)) = []
  ∧ calls (trace (exec env (mapSupabaseUser user) w)) = [].
Proof.
  split; [|split; [apply mapSupabaseUser_writes_nothing|]];
    destruct (mapSupabaseUser_trace env w user) as (logged & -> & Hreq & Hcalls);
    destruct user as [u|]; [|done| |done].
  - cbn [requests omap]. unfold requests in Hreq. cbn. by rewrite Hreq.
  - exact Hcalls.
Qed.

(** X1.  [mapSupabaseUser] makes no request for a null user and exactly
    one for a non-null user, the lookup of the row whose id is the
    user's; it never writes to the store and never calls the callback. *)
Theorem mapSupabaseUser_reads_once {World : Type} (env : Env World) (w : World)
    (user : option User.t) :
  requests (trace (exec env (mapSupabaseUser user) w))
  = match user with
    | Some u => [UsersSelectSingle "*" (User.id u)]
    | None => []
    end
  ∧ written (trace (exec env (mapSupabaseUser user) w)) = []
  ∧ calls (trace (exec env (mapSupabaseUser user) w)) = [].
Proof.
  split; [|split; [apply mapSupabaseUser_writes_nothing|]];
    destruct (mapSupabaseUser_trace env w user) as (logged & -> & Hreq & Hcalls);
    destruct user as [u|]; [|done| |done].
  - cbn [requests omap]. unfold requests in Hreq. cbn. by rewrite Hreq.
  - exact Hcalls.
Qed.

(** X2.  Whatever the store answers, the email, name, photoURL, role and
    isActive of the user that [mapSupabaseUser] returns are neither null
    nor undefined. *)
Theorem mapSupabaseUser_fields_defined {World : Type} (env : Env World) (w : World)
    (u : User.t) (x : TexaUser.t) :
  outcome (exec env (mapSupabaseUser (Some u)) w) = Resolved (Some x) ->
  ¬ absent (TexaUser.email x) ∧ ¬ absent (TexaUser.name x)
  ∧ ¬ absent (TexaUser.photoURL x) ∧ ¬ absent (TexaUser.role x)
  ∧ ¬ absent (TexaUser.isActive x).
Proof.
  destruct (lookup_cases (respond env (UsersSelectSingle "*" (User.id u)) w).2)
    as [[profile Hfound] | [Hnone | Hthrew]].
  - destruct (mapSupabaseUser_found env w u profile Hfound) as [t ->].
    intros [= <-]. cbn. split_and!; try apply js_or_default_defined.
    apply js_nullish_defined. by intros [|].
  - rewrite (mapSupabaseUser_no_record env w u Hnone). intros [= <-]. cbn.
    split_and!; try (by intros [|]).
    + destruct (truthy (User.metadata u "full_name")) eqn:Hfn.
      * intros [Ha | Ha]; rewrite Ha in Hfn; discriminate Hfn.
      * destruct (User.email u); by intros [|].
    + destruct (truthy (User.metadata u "avatar_url")) eqn:Hav; [|by intros [|]].
      intros [Ha | Ha]; rewrite Ha in Hav; discriminate Hav.
  - rewrite (mapSupabaseUser_threw env w u Hthrew). intros [= <-]. cbn.
    split_and!; try (by intros [|]).
    + destruct (truthy (User.metadata u "full_name")) eqn:Hfn; [|by intros [|]].
      intros [Ha | Ha]; rewrite Ha in Hfn; discriminate Hfn.
    + destruct (truthy (User.metadata u "avatar_url")) eqn:Hav; [|by intros [|]].
      intros [Ha | Ha]; rewrite Ha in Hav; discriminate Hav.
Qed.

Lemma mapSupabaseUser_fields_defined_witness :
  outcome (exec Backend.env (mapSupabaseUser (Some alice)) empty_world)
  = Resolved (Some (session_defaults alice "1970-01-01T00:00:00.000Z"))
  ∧ ¬ absent (TexaUser.name (session_defaults alice "1970-01-01T00:00:00.000Z"))
  ∧ ¬ absent (TexaUser.photoURL (session_defaults alice "1970-01-01T00:00:00.000Z")).
Proof.
  split; [reflexivity|].
  destruct (mapSupabaseUser_fields_defined Backend.env empty_world alice
              (session_defaults alice "1970-01-01T00:00:00.000Z") eq_refl)
    as (_ & Hname & Hphoto & _).
  split; [exact Hname | exact Hphoto].
Defined.

Lemma getCurrentUser_run {World : Type} (env : Env World) (w : World) :
  ∃ r, outcome (exec env getCurrentUser w) = Resolved r
     ∧ (is_Some r ↔ ∃ u, gave_user (respond env AuthGetUser w).2 u)
     ∧ written (trace (exec env getCurrentUser w)) = []
     ∧ calls (trace (exec env getCurrentUser w)) = [].
Proof.
  unfold getCurrentUser, await. cbn.
  destruct (respond env AuthGetUser w) as [w1 [[[u|] err]|e]]; cbn.
  - rewrite exec_try_catch.
    destruct (mapSupabaseUser_some env w1 u) as [x Hx].
    destruct (mapSupabaseUser_quiet env w1 (Some u)) as (_ & Hw & Hc).
    rewrite Hx. exists (Some x). split_and!; [done| |done|done].
    split; [|done]. intros _. exists u. by eexists.
  - unfold mapSupabaseUser. cbn. exists None. split_and!; [done| |done|done].
    split; [by intros [? [=]]|]. intros (u & a & [= <-] & [=]).
  - exists None. split_and!; [done| |done|done].
    split; [by intros [? [=]]|]. intros (u & a & [=] & _).
Qed.

(** X3.  [getCurrentUser] never throws, writes nothing to the store and
    never calls the callback; it returns a user exactly when the
    provider answers with one (an error reported beside the user is not
    looked at), and null otherwise. *)
Theorem getCurrentUser_spec {World : Type} (env : Env World) (w : World) :
  ∃ r, outcome (exec env getCurrentUser w) = Resolved r
     ∧ (is_Some r ↔ ∃ u, gave_user (respond env AuthGetUser w).2 u)
     ∧ written (trace (exec env getCurrentUser w)) = []
     ∧ calls (trace (exec env getCurrentUser w)) = [].
Proof.
  unfold getCurrentUser, await. cbn.
  destruct (respond env AuthGetUser w) as [w1 [[[u|] err]|e]]; cbn.
  - rewrite exec_try_catch.
    destruct (mapSupabaseUser_some env w1 u) as [x Hx].
    destruct (mapSupabaseUser_quiet env w1 (Some u)) as (_ & Hw & Hc).
    rewrite Hx. exists (Some x). split_and!; [done| |done|done].
    split; [|done]. intros _. exists u. by eexists.
  - unfold mapSupabaseUser. cbn. exists None. split_and!; [done| |done|done].
    split; [by intros [? [=]]|]. intros (u & a & [= <-] & [=]).
  - exists None. split_and!; [done| |done|done].
    split; [by intros [? [=]]|]. intros (u & a & [=] & _).
Qed.

(** X4.  [getUserById] never throws, makes the one lookup of the row
    and writes nothing; it returns null exactly when the lookup did not
    find a record (error, no row, or rejection). *)
Theorem getUserById_spec {World : Type} (env : Env World) (w : World) (userId : string) :
  ∃ r, outcome (exec env (getUserById userId) w) = Resolved r
     ∧ (r = None ↔ ¬ ∃ data, found (respond env (UsersSelectSingle "*" userId) w).2 data)
     ∧ requests (trace (exec env (getUserById userId) w)) = [UsersSelectSingle "*" userId]
     ∧ calls (trace (exec env (getUserById userId) w)) = [].
Proof.
  cbn. unfold found. destruct (respond env _ w) as [w1 [[[p|] [m|]]|e]]; cbn;
    eexists; (split; [reflexivity|]); (split; [|done]).
  - split; [intros _ (d & [=]) | done].
  - split; [done|]. intros Hno. exfalso. apply Hno. by exists p.
  - split; [intros _ (d & [=]) | done].
  - split; [intros _ (d & [=]) | done].
  - split; [intros _ (d & [=]) | done].
Qed.

(** ** The reference store under reads and writes *)

Lemma backend_identity_users (w : Backend.World) :
  Backend.users (Backend.identity w).1 = Backend.users w.
Proof. unfold Backend.identity. by destruct (Backend.provider w). Qed.

Lemma backend_select_users (w : Backend.World) (columns uid : string) :
  Backend.users (Backend.store (UsersSelectSingle columns uid) w).1 = Backend.users w.
Proof.
  unfold Backend.store. destruct (Backend.faults w) as [|[| msg | e] fs]; cbn;
    try reflexivity; by destruct (Backend.users w !! uid).
Qed.

Lemma backend_clock_users (w : Backend.World) :
  Backend.users (Backend.clock w).1 = Backend.users w.
Proof. unfold Backend.clock. by destruct (Backend.times w). Qed.

(** A run that sends no payload leaves the store as it was. *)
Lemma backend_read_only {A : Type} (p : Prog A) (w : Backend.World) :
  written (trace (exec Backend.env p w)) = [] ->
  Backend.users (final (exec Backend.env p w)) = Backend.users w.
Proof.
  revert w. induction p as [a | e | r k IH | k IH | msg k IH | u k IH]; intros w; cbn.
  - done.
  - done.
  - destruct r as [em pw fn | | columns uid | row c | row uid]; cbn; try discriminate;
      intros Hw; rewrite (IH _ _ Hw).
    + apply backend_identity_users.
    + apply backend_identity_users.
    + apply backend_select_users.
  - intros Hw. rewrite (IH _ _ Hw). apply backend_clock_users.
  - apply IH.
  - apply IH.
Qed.

Lemma backend_upsert_keeps (db : gmap string JsObj) (row : JsObj) (c : option string)
    (i k : string) :
  row !! k = None ->
  (Backend.serve (UsersUpsert row c) db).1 !! i ≫= (.!! k) = db !! i ≫= (.!! k).
Proof.
  intros Hk. cbn. destruct (prop row "id") as [| | b | n | uid]; try reflexivity. cbn.
  rewrite lookup_insert. case_decide as Hi; [|reflexivity]. subst i. cbn.
  rewrite lookup_union_r by (by apply sent_lookup_None).
  by destruct (db !! uid).
Qed.

Lemma backend_store_keeps (r : Request) (w : Backend.World) (i k : string) :
  match r with
  | UsersUpsert row _ | UsersUpdate row _ => row !! k = None
  | _ => True
  end ->
  Backend.users (Backend.store r w).1 !! i ≫= (.!! k) = Backend.users w !! i ≫= (.!! k).
Proof.
  intros Hk. unfold Backend.store.
  destruct (Backend.faults w) as [|[| msg | e] fs]; cbn [Backend.users fst];
    try reflexivity;
    destruct r as [em pw fn | | columns uid | row c | row uid]; try reflexivity;
    try (by cbn; destruct (Backend.users w !! uid));
    (by apply backend_upsert_keeps) || (by apply (backend_update_keeps _ _ uid)).
Qed.

(** A run whose payloads all lack the key [k] leaves the stored field
    [k] of every row as it was. *)
Lemma backend_frame {A : Type} (p : Prog A) (w : Backend.World) (i k : string) :
  Forall (fun row => row !! k = None) (written (trace (exec Backend.env p w))) ->
  Backend.users (final (exec Backend.env p w)) !! i ≫= (.!! k)
  = Backend.users w !! i ≫= (.!! k).
Proof.
  revert w. induction p as [a | e | r k' IH | k' IH | msg k' IH | u k' IH]; intros w; cbn.
  - done.
  - done.
  - intros Hw.
    assert (match r with
            | UsersUpsert row _ | UsersUpdate row _ => row !! k = None
            | _ => True
            end
            ∧ Forall (fun row => row !! k = None)
                (written (trace (exec Backend.env (k' (Backend.respond r w).2)
                                   (Backend.respond r w).1)))) as [Hr Hrest].
    { destruct r; cbn in Hw |- *; try done; by apply Forall_cons in Hw. }
    rewrite (IH _ _ Hrest).
    destruct r as [em pw fn | | columns uid | row c | row uid]; cbn.
    + by rewrite backend_identity_users.
    + by rewrite backend_identity_users.
    + by apply (backend_store_keeps (UsersSelectSingle columns uid)).
    + by apply (backend_store_keeps (UsersUpsert row c)).
    + by apply (backend_store_keeps (UsersUpdate row uid)).
  - intros Hw. rewrite (IH _ _ Hw). by rewrite backend_clock_users.
  - apply IH.
  - apply IH.
Qed.

Lemma updateData_lookups (updates : TexaUser.t) :
  updateData updates !! "name"
  = (if is_undefined (TexaUser.name updates) then None else Some (TexaUser.name updates))
  ∧ updateData updates !! "photo_url"
    = (if is_undefined (TexaUser.photoURL updates) then None
       else Some (TexaUser.photoURL updates))
  ∧ updateData updates !! "role"
    = (if is_undefined (TexaUser.role updates) then None else Some (TexaUser.role updates))
  ∧ updateData updates !! "is_active"
    = (if is_undefined (TexaUser.isActive updates) then None
       else Some (TexaUser.isActive updates))
  ∧ updateData updates !! "subscription_end"
    = (if is_undefined (TexaUser.subscriptionEnd updates) then None
       else Some (TexaUser.subscriptionEnd updates)).
Proof.
  destruct updates as [i e n p r a s c l]. unfold updateData, assign_defined. cbn.
  destruct (is_undefined n), (is_undefined p), (is_undefined r),
    (is_undefined a), (is_undefined s); repeat split; reflexivity.
Qed.

(** Every value of the update payload is defined, so all of it is sent. *)
Lemma sent_updateData (updates : TexaUser.t) :
  Backend.sent (updateData updates) = updateData updates.
Proof.
  apply map_filter_id. intros k v Hk. rewrite updateData_present in Hk.
  unfold present in Hk. apply elem_of_list_to_map_2 in Hk.
  by apply list_elem_of_filter in Hk as [Hv _].
Qed.

Lemma merged_prop (payload row : JsObj) (k : string) (v : JsVal) :
  payload !! k = (if is_undefined v then None else Some v) ->
  prop (payload ∪ row) k = updated v (prop row k).
Proof.
  intros Hk. unfold prop, updated. rewrite lookup_union, Hk.
  destruct (is_undefined v), (row !! k); reflexivity.
Qed.

Lemma merged_prop_other (payload row : JsObj) (k : string) :
  payload !! k = None -> prop (payload ∪ row) k = prop row k.
Proof. intros Hk. unfold prop. by rewrite lookup_union_r. Qed.

Lemma column_prop (row : JsObj) (k : string) :
  prop (filter (fun kv : string * JsVal => kv.1 = k) row) k = prop row k.
Proof.
  unfold prop. rewrite map_lookup_filter. destruct (row !! k) as [v|]; [|reflexivity].
  cbn. by rewrite option_guard_True.
Qed.

(** The column asked for is in the answer as it is in the row. *)
Lemma select_prop (row : JsObj) (k : string) : prop (Backend.select k row) k = prop row k.
Proof.
  unfold Backend.select. destruct (String.eqb k "*"); [reflexivity|]. apply column_prop.
Qed.

Lemma backend_updateUserProfile_healthy (w : Backend.World) (userId : string)
    (updates : TexaUser.t) (row : JsObj) :
  Backend.faults w = [] ->
  Backend.users w !! userId = Some row ->
  outcome (exec Backend.env (updateUserProfile userId updates) w) = Resolved true
  ∧ Backend.faults (final (exec Backend.env (updateUserProfile userId updates) w)) = []
  ∧ Backend.users (final (exec Backend.env (updateUserProfile userId updates) w)) !! userId
    = Some (updateData updates ∪ row).
Proof.
  destruct w as [db pr ts fs]. cbn. intros -> Hrow. cbn. unfold Backend.store; cbn.
  split_and!; [done|done|]. by rewrite lookup_alter_eq, Hrow, sent_updateData.
Qed.

(** X5.  On a healthy reference store that holds a row for the id, an
    update followed by [getUserById] reads back what was written: name,
    photoURL and subscriptionEnd are those of the update where it
    carries them, role and isActive likewise before their defaults, and
    every other field is the stored one. *)
Theorem updateUserProfile_then_getUserById (w : Backend.World) (userId : string)
    (updates : TexaUser.t) (row : JsObj) :
  Backend.faults w = [] ->
  Backend.users w !! userId = Some row ->
  outcome (exec Backend.env (updateUserProfile userId updates) w) = Resolved true
  ∧ outcome (exec Backend.env (getUserById userId)
               (final (exec Backend.env (updateUserProfile userId updates) w)))
    = Resolved (Some {|
        TexaUser.id := prop row "id";
        TexaUser.email := prop row "email";
        TexaUser.name := updated (TexaUser.name updates) (prop row "name");
        TexaUser.photoURL := updated (TexaUser.photoURL updates) (prop row "photo_url");
        TexaUser.role :=
          js_or (updated (TexaUser.role updates) (prop row "role")) (JStr "MEMBER");
        TexaUser.isActive :=
          js_nullish (updated (TexaUser.isActive updates) (prop row "is_active"))
                     (JBool true);
        TexaUser.subscriptionEnd :=
          updated (TexaUser.subscriptionEnd updates) (prop row "subscription_end");
        TexaUser.createdAt := prop row "created_at";
        TexaUser.lastLogin := prop row "last_login" |}).
Proof.
  intros Hfs Hrow.
  destruct (backend_updateUserProfile_healthy w userId updates row Hfs Hrow)
    as (Hok & Hfs' & Hrow').
  split; [exact Hok|].
  rewrite (getUserById_found Backend.env _ userId (updateData updates ∪ row)).
  - destruct (updateData_lookups updates) as (Hn & Hp & Hr & Ha & Hs).
    rewrite (merged_prop _ row _ _ Hn), (merged_prop _ row _ _ Hp),
      (merged_prop _ row _ _ Hr), (merged_prop _ row _ _ Ha), (merged_prop _ row _ _ Hs).
    rewrite !merged_prop_other
      by (rewrite updateData_present; apply present_updatable_frame; compute_done).
    reflexivity.
  - generalize dependent (final (exec Backend.env (updateUserProfile userId updates) w)).
    intros w1 Hfs' Hrow'.
    unfold found. cbn. unfold Backend.store. rewrite Hfs'. cbn. by rewrite Hrow'.
Qed.

Lemma updateUserProfile_then_getUserById_witness :
  outcome (exec Backend.env (getUserById "u1")
             (final (exec Backend.env (updateUserProfile "u1" promote_ann) alice_world)))
  = Resolved (Some {|
      TexaUser.id := JStr "u1";
      TexaUser.email := JStr "a@example.com";
      TexaUser.name := JStr "Ann";
      TexaUser.photoURL := JUndefined;
      TexaUser.role := JStr "ADMIN";
      TexaUser.isActive := JBool true;
      TexaUser.subscriptionEnd := JUndefined;
      TexaUser.createdAt := JUndefined;
      TexaUser.lastLogin := JUndefined |}).
Proof.
  exact (proj2 (updateUserProfile_then_getUserById alice_world "u1" promote_ann alice_row
                  eq_refl eq_refl)).
Defined.

(** X6.  On a healthy reference store that holds a row for the id,
    [isAdmin] after an update answers by the role the update carries,
    true exactly for the string ["ADMIN"], and by the stored role when
    the update carries none. *)
Theorem updateUserProfile_then_isAdmin (w : Backend.World) (userId : string)
    (updates : TexaUser.t) (row : JsObj) :
  Backend.faults w = [] ->
  Backend.users w !! userId = Some row ->
  outcome (exec Backend.env (isAdmin userId)
             (final (exec Backend.env (updateUserProfile userId updates) w)))
  = Resolved (js_strict_eq (updated (TexaUser.role updates) (prop row "role"))
                (JStr "ADMIN")).
Proof.
  intros Hfs Hrow.
  destruct (backend_updateUserProfile_healthy w userId updates row Hfs Hrow)
    as (_ & Hfs' & Hrow').
  generalize dependent (final (exec Backend.env (updateUserProfile userId updates) w)).
  intros w1 Hfs' Hrow'.
  cbn. unfold Backend.store. rewrite Hfs'. cbn. rewrite Hrow'. cbn.
  rewrite column_prop.
  destruct (updateData_lookups updates) as (_ & _ & Hr & _).
  by rewrite (merged_prop _ row _ _ Hr).
Qed.

Lemma updateUserProfile_then_isAdmin_witness :
  outcome (exec Backend.env (isAdmin "u1") alice_world) = Resolved false
  ∧ outcome (exec Backend.env (isAdmin "u1")
               (final (exec Backend.env (updateUserProfile "u1" promote_ann) alice_world)))
    = Resolved true.
Proof.
  split; [reflexivity|].
  exact (updateUserProfile_then_isAdmin alice_world "u1" promote_ann alice_row
           eq_refl eq_refl).
Defined.

(** ** Sign-up, further *)

Lemma display_name_js_or (name : option string) (email : string) :
  js_or (opt_str name) (split_at_0 email) = display_name name email.
Proof.
  rewrite split_at_0_local_part. destruct name as [n|]; [|reflexivity].
  unfold js_or, display_name; cbn. by destruct (String.eqb n "").
Qed.


Section SignUp.
Context {World : Type} (env : Env World).


Lemma signUp_granted (w : World) (email password : string) (name : option string)
    (u : User.t) :
  let s0 := respond env (AuthSignUp email password (display_name name email)) w in
  let c1 := clock env s0.1 in
  let c2 := clock env c1.1 in
  let row := obj [("id", JStr (User.id u));
                  ("email", opt_str (User.email u));
                  ("name", display_name name email);
                  ("role", JStr "MEMBER");
                  ("is_active", JBool true);
                  ("created_at", JStr c1.2);
                  ("last_login", JStr c2.2)] in
  let up := respond env (UsersUpsert row None) c2.1 in
  granted s0.2 u ->
  match up.2 with
  | Resolved _ =>
      ∃ x, outcome (exec env (mapSupabaseUser (Some u)) up.1) = Resolved (Some x)
         ∧ outcome (exec env (signUp email password name) w)
           = Resolved (SignResult.mk (Some x) None)
         ∧ trace (exec env (signUp email password name) w)
           = Requested (AuthSignUp email password (display_name name email))
             :: Requested (UsersUpsert row None)
             :: trace (exec env (mapSupabaseUser (Some u)) up.1)
         ∧ final (exec env (signUp email password name) w)
           = final (exec env (mapSupabaseUser (Some u)) up.1)
  | Rejected e =>
      outcome (exec env (signUp email password name) w)
      = Resolved (SignResult.mk None (Some (message_or e "Sign up failed")))
      ∧ trace (exec env (signUp email password name) w)
        = [Requested (AuthSignUp email password (display_name name email));
           Requested (UsersUpsert row None)]
  end.
Proof.
  unfold signUp, await, granted. cbn. rewrite !display_name_js_or.
  destruct (respond env _ w) as [w1 o]; cbn. intros ->. cbn.
  rewrite ?display_name_js_or.
  destruct (clock env w1) as [w2 t1]; cbn.
  destruct (clock env w2) as [w3 t2]; cbn.
  destruct (respond env _ w3) as [w4 [res|e]]; cbn; [|done].
  destruct (mapSupabaseUser_some env w4 u) as [x Hx]. exists x.
  unfold mbind, Prog_bind. rewrite exec_try_catch, exec_bind, Hx. cbn.
  by rewrite app_nil_r.
Qed.
End SignUp.




(** X9.  The full name that [signUp] sends to the provider and the name
    of the row it upserts are one value: the given display name, or the
    local part of the email when none or the empty string is given. *)
Theorem signUp_display_name {World : Type} (env : Env World) (w : World)
    (email password : string) (name : option string) (u : User.t) :
  granted (respond env (AuthSignUp email password (display_name name email)) w).2 u ->
  requests (trace (exec env (signUp email password name) w)) !! 0
  = Some (AuthSignUp email password (display_name name email))
  ∧ ∃ row, written (trace (exec env (signUp email password name) w)) = [row]
         ∧ prop row "name" = display_name name email.
Proof.
  intros Hu. pose proof (signUp_granted env w email password name u Hu) as Hrun.
  cbv zeta in Hrun. destruct (respond env (UsersUpsert _ None) _) as [w4 [a|e]].
  - destruct Hrun as (x & _ & _ & -> & _). split; [reflexivity|].
    eexists. split.
    { pose proof (mapSupabaseUser_writes_nothing env w4 (Some u)) as Hw.
      unfold written in Hw |- *. cbn [omap fst snd list_omap]. cbn. by rewrite Hw. }
    reflexivity.
  - destruct Hrun as [_ ->]. split; [reflexivity|]. eexists. split; reflexivity.
Qed.

Lemma signUp_display_name_witness :
  ∃ row,
    written (trace (exec Backend.env (signUp "A@Example.com" "pw" (Some "Ann"))
                      signup_world)) = [row]
    ∧ prop row "name" = JStr "Ann".
Proof.
  exact (proj2 (signUp_display_name Backend.env signup_world "A@Example.com" "pw"
                  (Some "Ann") account eq_refl)).
Defined.



(** A store without pending faults stays so. *)
Lemma backend_healthy {A : Type} (p : Prog A) (w : Backend.World) :
  Backend.faults w = [] -> Backend.faults (final (exec Backend.env p w)) = [].
Proof.
  revert w. induction p as [a | e | r k IH | k IH | msg k IH | u k IH]; intros w Hfs; cbn.
  - done.
  - done.
  - apply IH. destruct r as [em pw fn | | columns uid | row c | row uid]; cbn;
      unfold Backend.identity, Backend.store; rewrite ?Hfs; cbn;
      try (by destruct (Backend.provider w)); done.
  - apply IH. unfold Backend.clock. by destruct (Backend.times w).
  - by apply IH.
  - by apply IH.
Qed.

Lemma display_name_defined (name : option string) (email : string) :
  is_undefined (display_name name email) = false.
Proof. destruct name as [n|]; [|reflexivity]. cbn. by destruct (String.eqb n ""). Qed.

Lemma sent_lookup_Some (row : JsObj) (k : string) (v : JsVal) :
  row !! k = Some v -> is_undefined v = false -> Backend.sent row !! k = Some v.
Proof. intros Hk Hv. unfold Backend.sent. by apply map_lookup_filter_Some_2. Qed.

Lemma prop_union_l (m1 m2 : JsObj) (k : string) (v : JsVal) :
  m1 !! k = Some v -> prop (m1 ∪ m2) k = v.
Proof. intros Hk. unfold prop. by rewrite (lookup_union_Some_l _ _ _ _ Hk). Qed.

(** X11.  On a healthy reference store, after a granted sign-up
    [getUserById] finds the new profile with the provider's id, the
    display name, role MEMBER and active, whatever row the store held
    under that id before: a sign-up resets role and is_active. *)
Theorem signUp_then_getUserById (w : Backend.World) (email password : string)
    (name : option string) (u : User.t) (others : list (Outcome Auth.t)) :
  Backend.faults w = [] ->
  Backend.provider w = Resolved (Auth.mk (Some u) None) :: others ->
  ∃ x, outcome (exec Backend.env (getUserById (User.id u))
                  (final (exec Backend.env (signUp email password name) w)))
       = Resolved (Some x)
     ∧ TexaUser.id x = JStr (User.id u)
     ∧ TexaUser.name x = display_name name email
     ∧ TexaUser.role x = JStr "MEMBER"
     ∧ TexaUser.isActive x = JBool true
     ∧ (∀ e, User.email u = Some e -> TexaUser.email x = JStr e).
Proof.
  intros Hfs Hpr.
  assert (granted (respond Backend.env (AuthSignUp email password
                                          (display_name name email)) w).2 u) as Hu.
  { cbn. unfold Backend.identity. by rewrite Hpr. }
  pose proof (signUp_granted Backend.env w email password name u Hu) as Hrun.
  cbv zeta in Hrun.
  set (s0 := respond Backend.env (AuthSignUp email password (display_name name email)) w)
    in *.
  set (c1 := clock Backend.env s0.1) in *. set (c2 := clock Backend.env c1.1) in *.
  set (row := obj _) in *.
  assert (Backend.faults c2.1 = []) as Hfs2.
  { subst c2 c1 s0. cbn. unfold Backend.identity. rewrite Hpr. cbn.
    unfold Backend.clock; cbn. destruct (Backend.times w) as [|t1 [|t2 ts]]; cbn; done. }
  assert (Backend.users c2.1 = Backend.users w) as Hdb2.
  { subst c2 c1 s0. cbn. unfold Backend.identity. rewrite Hpr. cbn.
    unfold Backend.clock; cbn. destruct (Backend.times w) as [|t1 [|t2 ts]]; cbn; done. }
  clearbody c2 c1 s0.
  set (up := respond Backend.env (UsersUpsert row None) c2.1) in *.
  assert (up.2 = Resolved Backend.ok
          ∧ Backend.faults up.1 = []
          ∧ Backend.users up.1
            = <[User.id u := Backend.sent row ∪ default ∅ (Backend.users w !! User.id u)]>
                (Backend.users w)) as (Hup & Hfs3 & Hdb3).
  { subst up.
    change (respond Backend.env (UsersUpsert row None) c2.1)
      with (Backend.store (UsersUpsert row None) c2.1).
    unfold Backend.store. rewrite Hfs2. cbn. by rewrite Hdb2. }
  rewrite Hup in Hrun. destruct Hrun as (x & _ & _ & Htrace & Hfinal).
  rewrite Hfinal.
  set (data := Backend.sent row ∪ default ∅ (Backend.users w !! User.id u)) in *.
  rewrite (getUserById_found Backend.env _ (User.id u) data).
  - eexists. split; [reflexivity|].
    cbn [TexaUser.id TexaUser.name TexaUser.role TexaUser.isActive TexaUser.email].
    assert (∀ k v, row !! k = Some v -> is_undefined v = false -> prop data k = v)
      as Hprop.
    { intros k v Hk Hv. apply prop_union_l. by apply sent_lookup_Some. }
    split_and!.
    + apply Hprop; reflexivity.
    + apply Hprop; [reflexivity | apply display_name_defined].
    + rewrite (Hprop "role" (JStr "MEMBER")); reflexivity.
    + rewrite (Hprop "is_active" (JBool true)); reflexivity.
    + intros e He. apply Hprop; [|reflexivity]. subst row. rewrite He. reflexivity.
  - pose proof (backend_healthy (mapSupabaseUser (Some u)) up.1 Hfs3) as Hfs4.
    pose proof (backend_read_only (mapSupabaseUser (Some u)) up.1
                  (mapSupabaseUser_writes_nothing _ _ _)) as Hdb4.
    rewrite Hdb3 in Hdb4.
    destruct (final (exec Backend.env (mapSupabaseUser (Some u)) up.1))
      as [db pr ts fs].
    cbn [Backend.faults Backend.users] in Hfs4, Hdb4. subst fs db.
    unfold found.
    change (respond Backend.env (UsersSelectSingle "*" (User.id u)) ?w)
      with (Backend.store (UsersSelectSingle "*" (User.id u)) w).
    unfold Backend.store. cbn [Backend.faults Backend.users tail fst snd Backend.serve].
    rewrite lookup_insert_eq. reflexivity.
Qed.

Lemma signUp_then_getUserById_witness :
  prop (default ∅ (Backend.users admin_world !! "u2")) "role" = JStr "ADMIN"
  ∧ ∃ x, outcome (exec Backend.env (getUserById "u2")
                    (final (exec Backend.env (signUp "A@Example.com" "pw" None)
                              admin_world)))
         = Resolved (Some x)
       ∧ TexaUser.role x = JStr "MEMBER"
       ∧ TexaUser.isActive x = JBool true.
Proof.
  split; [reflexivity|].
  destruct (signUp_then_getUserById admin_world "A@Example.com" "pw" None account []
              eq_refl eq_refl) as (x & Hx & _ & _ & Hrole & Hactive & _).
  exists x. split; [exact Hx|]. split; [exact Hrole | exact Hactive].
Defined.

(** ** The session-changed handler, further *)

Section Handler.
Context {World : Type} (env : Env World).

Lemma handler_signed_in (w : World) (event : string) (su : User.t) :
  event = "SIGNED_IN" ∨ event = "TOKEN_REFRESHED" ->
  let run := exec env (authStateHandler event (Some (Session.mk (Some su)))) w in
  let m := exec env (mapSupabaseUser (Some su)) w in
  let c := clock env (final m) in
  let row := obj [("id", JStr (User.id su));
                  ("email", opt_str (User.email su));
                  ("name", js_or (User.metadata su "full_name")
                                 (opt_split_at_0 (User.email su)));
                  ("photo_url", User.metadata su "avatar_url");
                  ("last_login", JStr c.2)] in
  let up := respond env (UsersUpsert row (Some "id")) c.1 in
  ∃ x, outcome m = Resolved (Some x)
     ∧ match up.2 with
       | Resolved _ =>
           trace run
           = trace m ++ [Requested (UsersUpsert row (Some "id")); Called (Some x)]
           ∧ outcome run = match (invoke env (Some x) up.1).2 with
                           | Resolved _ => Resolved tt
                           | Rejected e => Rejected e
                           end
       | Rejected e =>
           trace run = trace m ++ [Requested (UsersUpsert row (Some "id"))]
           ∧ outcome run = Rejected e
       end.
Proof.
  intros Hev.
  assert (authStateHandler event (Some (Session.mk (Some su)))
          = authStateHandler "SIGNED_IN" (Some (Session.mk (Some su)))) as ->
    by (by destruct Hev as [-> | ->]).
  unfold authStateHandler. cbn -[obj]. unfold mbind, Prog_bind.
  destruct (mapSupabaseUser_some env w su) as [x Hx]. exists x. split; [exact Hx|].
  rewrite exec_bind, Hx. cbn -[obj].
  destruct (clock env _) as [w2 t]; cbn -[obj].
  destruct (respond env _ w2) as [w3 [a|e]]; cbn -[obj]; [|done].
  destruct (invoke env (Some x) w3) as [w4 [[]|e]]; cbn -[obj]; done.
Qed.
End Handler.

(** X12.  On a signed-in or token-refreshed event with a user, the
    handler writes one row, with the keys id, email, name, photo_url and
    last_login and no others; on the reference store the stored role,
    is_active, subscription_end and created_at of every row are
    therefore as they were. *)
Theorem handler_upsert_frame :
  (∀ (World : Type) (env : Env World) (w : World) (event : string) (su : User.t),
     event = "SIGNED_IN" ∨ event = "TOKEN_REFRESHED" ->
     ∃ t, written (trace (exec env (authStateHandler event
                                      (Some (Session.mk (Some su)))) w))
          = [obj [("id", JStr (User.id su));
                  ("email", opt_str (User.email su));
                  ("name", js_or (User.metadata su "full_name")
                                 (opt_split_at_0 (User.email su)));
                  ("photo_url", User.metadata su "avatar_url");
                  ("last_login", JStr t)]])
  ∧ (∀ (w : Backend.World) (event : string) (su : User.t) (i k : string),
       event = "SIGNED_IN" ∨ event = "TOKEN_REFRESHED" ->
       k ∈ ["role"; "is_active"; "subscription_end"; "created_at"] ->
       Backend.users (final (exec Backend.env
                               (authStateHandler event (Some (Session.mk (Some su)))) w))
         !! i ≫= (.!! k)
       = Backend.users w !! i ≫= (.!! k)).
Proof.
  assert (∀ (World : Type) (env : Env World) (w : World) (event : string) (su : User.t),
            event = "SIGNED_IN" ∨ event = "TOKEN_REFRESHED" ->
            ∃ t, written (trace (exec env (authStateHandler event
                                             (Some (Session.mk (Some su)))) w))
                 = [obj [("id", JStr (User.id su));
                         ("email", opt_str (User.email su));
                         ("name", js_or (User.metadata su "full_name")
                                        (opt_split_at_0 (User.email su)));
                         ("photo_url", User.metadata su "avatar_url");
                         ("last_login", JStr t)]]) as Hwritten.
  { intros World env w event su Hev.
    pose proof (handler_signed_in env w event su Hev) as (x & _ & Hrun).
    cbv zeta in Hrun. eexists.
    pose proof (mapSupabaseUser_writes_nothing env w (Some su)) as Hm.
    unfold written in Hm |- *.
    destruct (respond env (UsersUpsert _ (Some "id")) _).2 as [a|e];
      destruct Hrun as [-> _]; rewrite omap_app, Hm; reflexivity. }
  split; [exact Hwritten|].
  intros w event su i k Hev Hk. apply backend_frame.
  destruct (Hwritten _ Backend.env w event su Hev) as [t ->].
  apply Forall_singleton.
  rewrite !elem_of_cons in Hk.
  destruct Hk as [-> | [-> | [-> | [-> | Hk]]]];
    [reflexivity.. | by apply elem_of_nil in Hk].
Qed.

(** A sign-in of [account] leaves the role of the stored administrator. *)
Lemma handler_upsert_frame_witness :
  Backend.users (final (exec Backend.env
                          (authStateHandler "SIGNED_IN"
                             (Some (Session.mk (Some account)))) admin_world))
    !! "u2" ≫= (.!! "role")
  = Some (JStr "ADMIN").
Proof.
  rewrite (proj2 handler_upsert_frame admin_world "SIGNED_IN" account "u2" "role");
    [reflexivity | by left | compute_done].
Defined.

(** X13.  On a signed-in or token-refreshed event with a user, the
    callback is invoked once, with the reconciled non-null user, when
    the upsert of the profile is answered (be it with an error); when
    the upsert is rejected the handler throws and the callback is not
    invoked at all. *)
Theorem handler_callback_after_upsert {World : Type} (env : Env World) (w : World)
    (event : string) (su : User.t) :
  event = "SIGNED_IN" ∨ event = "TOKEN_REFRESHED" ->
  let run := exec env (authStateHandler event (Some (Session.mk (Some su)))) w in
  let m := exec env (mapSupabaseUser (Some su)) w in
  let c := clock env (final m) in
  let up := respond env
              (UsersUpsert
                 (obj [("id", JStr (User.id su));
                       ("email", opt_str (User.email su));
                       ("name", js_or (User.metadata su "full_name")
                                      (opt_split_at_0 (User.email su)));
                       ("photo_url", User.metadata su "avatar_url");
                       ("last_login", JStr c.2)])
                 (Some "id"))
              c.1 in
  (∀ a, up.2 = Resolved a ->
        ∃ x, outcome m = Resolved (Some x) ∧ calls (trace run) = [Some x])
  ∧ (∀ e, up.2 = Rejected e -> calls (trace run) = [] ∧ outcome run = Rejected e).
Proof.
  intros Hev run m c up.
  pose proof (handler_signed_in env w event su Hev) as (x & Hx & Hrun).
  cbv zeta in Hrun. fold run m c in Hrun. fold up in Hrun.
  pose proof (proj2 (proj2 (mapSupabaseUser_quiet env w (Some su)))) as Hm. fold m in Hm.
  unfold calls in Hm |- *.
  destruct up.2 as [a|e]; destruct Hrun as [-> Hout].
  - split; [|by intros e [=]]. intros _ _. exists x. split; [exact Hx|].
    by rewrite omap_app, Hm.
  - split; [by intros a [=]|]. intros e' [= <-]. split; [|exact Hout].
    by rewrite omap_app, Hm.
Qed.

Lemma handler_callback_after_upsert_witness :
  calls (trace (exec Backend.env
                  (authStateHandler "SIGNED_IN" (Some (Session.mk (Some alice))))
                  (Backend.mkWorld ∅ [] []
                     [Backend.Healthy; Backend.Throws {| message := None |}])))
  = [].
Proof.
  exact (proj1 (proj2 (handler_callback_after_upsert Backend.env
                         (Backend.mkWorld ∅ [] []
                            [Backend.Healthy; Backend.Throws {| message := None |}])
                         "SIGNED_IN" alice (or_introl eq_refl))
                  {| message := None |} eq_refl)).
Defined.

(** X14.  On a signed-in or token-refreshed event without a user (no
    session, or a session without one) the handler makes no request and
    invokes the callback once, with null. *)
Theorem handler_no_user {World : Type} (env : Env World) (w : World)
    (event : string) (session : option Session.t) :
  event = "SIGNED_IN" ∨ event = "TOKEN_REFRESHED" ->
  session ≫= Session.user = None ->
  trace (exec env (authStateHandler event session) w) = [Called None].
Proof.
  intros Hev Hnone.
  assert (authStateHandler event session = authStateHandler "SIGNED_IN" session) as ->
    by (by destruct Hev as [-> | ->]).
  unfold authStateHandler. cbn. rewrite Hnone. unfold mapSupabaseUser. cbn.
  by destruct (invoke env None w) as [w1 [[]|e]].
Qed.

Lemma handler_no_user_witness :
  trace (exec Backend.env (authStateHandler "TOKEN_REFRESHED" None) alice_world)
  = [Called None].
Proof.
  apply (handler_no_user Backend.env alice_world "TOKEN_REFRESHED" None);
    [by right | reflexivity].
Defined.

(** X15.  The initial query of [onAuthChange] never fails to call back:
    run to its end it invokes the callback exactly once in every
    environment, with a user exactly when the provider answers with
    one, and it writes nothing to the store. *)
Theorem initialUserTask_calls_once {World : Type} (env : Env World) (w : World) :
  ∃ r, calls (trace (exec env initialUserTask w)) = [r]
     ∧ (is_Some r ↔ ∃ u, gave_user (respond env AuthGetUser w).2 u)
     ∧ written (trace (exec env initialUserTask w)) = [].
Proof.
  destruct (getCurrentUser_run env w) as (r & Hr & Hsome & Hw & Hc).
  unfold initialUserTask, mbind, Prog_bind. rewrite exec_bind, Hr.
  cbn [trace]. unfold calls, written in *. rewrite !omap_app, Hc, Hw.
  exists r. split_and!; [|exact Hsome|].
  - cbn. by destruct (invoke env r _) as [w1 [[]|e]].
  - cbn. by destruct (invoke env r _) as [w1 [[]|e]].
Qed.

(** ** Sign-in, sign-out and the session *)



Section Session.
Context {World : Type} (env : Env World).
Context (answer : forall c : Call, World -> World * Outcome (Answer c)).


Lemma signIn_granted (w : World) (email password : string) (u : User.t) :
  let run := rest (exec_flow env answer (signIn email password) w) in
  let s0 := answer (SignInWithPassword email password) w in
  let c := clock env s0.1 in
  let update := UsersUpdate (obj [("last_login", JStr c.2)]) (User.id u) in
  let up := respond env update c.1 in
  granted s0.2 u ->
  asked (exec_flow env answer (signIn email password) w)
  = [SignInWithPassword email password]
  ∧ match up.2 with
    | Resolved _ =>
        ∃ x, outcome (exec env (mapSupabaseUser (Some u)) up.1) = Resolved (Some x)
           ∧ outcome run = Resolved (SignResult.mk (Some x) None)
           ∧ trace run
             = Requested update :: trace (exec env (mapSupabaseUser (Some u)) up.1)
           ∧ final run = final (exec env (mapSupabaseUser (Some u)) up.1)
    | Rejected e =>
        outcome run = Resolved (SignResult.mk None (Some (message_or e "Sign in failed")))
        ∧ trace run = [Requested update]
    end.
Proof.
  unfold signIn, granted. cbn -[obj].
  destruct (answer _ w) as [w1 o]; cbn -[obj]. intros ->. cbn -[obj].
  destruct (clock env w1) as [w2 t]; cbn -[obj].
  destruct (respond env _ w2) as [w3 [a|e]]; cbn -[obj]; [|done].
  split; [done|].
  destruct (mapSupabaseUser_some env w3 u) as [x Hx]. exists x.
  unfold mbind, Prog_bind. rewrite exec_try_catch, exec_bind, Hx. cbn.
  by rewrite app_nil_r.
Qed.
End Session.






(** A stored last login that is set is the one reported. *)
Lemma mapSupabaseUser_stored_last_login {World : Type} (env : Env World) (w : World)
    (u : User.t) (profile : JsObj) :
  found (respond env (UsersSelectSingle "*" (User.id u)) w).2 profile ->
  truthy (prop profile "last_login") = true ->
  ∃ x, outcome (exec env (mapSupabaseUser (Some u)) w) = Resolved (Some x)
     ∧ TexaUser.lastLogin x = prop profile "last_login"
     ∧ TexaUser.id x = prop profile "id"
     ∧ TexaUser.role x = js_or (prop profile "role") (JStr "MEMBER")
     ∧ TexaUser.isActive x = js_nullish (prop profile "is_active") (JBool true).
Proof.
  unfold mapSupabaseUser, found. cbn.
  destruct (respond env _ w) as [w1 o]; cbn. intros -> Hlast. cbn.
  unfold or_else. rewrite Hlast. cbn. eexists. split; [reflexivity|]. done.
Qed.

(** X19.  On a healthy reference store that holds the user's row, the
    user that a granted [signIn] returns carries the time of this
    sign-in as last login, because the update is made before the row is
    read; the stored role and id are reported as they are. *)
Theorem signIn_reads_back_last_login (w : Backend.World) (email password : string)
    (u : User.t) (row : JsObj) (t : string) (ts : list string)
    (others : list (Outcome Auth.t)) :
  Backend.faults w = [] ->
  Backend.provider w = Resolved (Auth.mk (Some u) None) :: others ->
  Backend.times w = t :: ts ->
  t ≠ "" ->
  Backend.users w !! User.id u = Some row ->
  ∃ x, outcome (rest (exec_flow Backend.env Browser.answer (signIn email password) w))
       = Resolved (SignResult.mk (Some x) None)
     ∧ TexaUser.lastLogin x = JStr t
     ∧ TexaUser.id x = prop row "id"
     ∧ TexaUser.role x = js_or (prop row "role") (JStr "MEMBER").
Proof.
  intros Hfs Hpr Hts Ht Hrow.
  assert (granted (Browser.answer (SignInWithPassword email password) w).2 u) as Hu.
  { cbn. unfold Backend.identity. by rewrite Hpr. }
  pose proof (signIn_granted Backend.env Browser.answer w email password u Hu)
    as [_ Hrun].
  cbv zeta in Hrun.
  assert ((clock Backend.env (Browser.answer (SignInWithPassword email password) w).1).2
          = t) as Hclock.
  { cbn. unfold Backend.identity. rewrite Hpr. cbn. unfold Backend.clock. cbn.
    by rewrite Hts. }
  rewrite Hclock in Hrun.
  set (c := clock Backend.env (Browser.answer (SignInWithPassword email password) w).1)
    in *.
  assert (Backend.faults c.1 = [] ∧ Backend.users c.1 = Backend.users w) as [Hfs1 Hdb1].
  { subst c. cbn. unfold Backend.identity. rewrite Hpr. cbn. unfold Backend.clock. cbn.
    by rewrite Hts. }
  clearbody c.
  set (payload := obj [("last_login", JStr t)]) in *.
  set (up := respond Backend.env (UsersUpdate payload (User.id u)) c.1) in *.
  assert (up.2 = Resolved Backend.ok
          ∧ Backend.faults up.1 = []
          ∧ Backend.users up.1 !! User.id u = Some (Backend.sent payload ∪ row))
    as (Hup & Hfs2 & Hdb2).
  { subst up.
    change (respond Backend.env (UsersUpdate payload (User.id u)) c.1)
      with (Backend.store (UsersUpdate payload (User.id u)) c.1).
    unfold Backend.store. rewrite Hfs1.
    cbn [Backend.faults Backend.users tail fst snd Backend.serve].
    by rewrite Hdb1, lookup_alter_eq, Hrow. }
  rewrite Hup in Hrun. destruct Hrun as (x & Hx & Hout & _).
  assert (found (respond Backend.env (UsersSelectSingle "*" (User.id u)) up.1).2
            (Backend.sent payload ∪ row)) as Hfound.
  { clearbody up. destruct up.1 as [db pr ts' fs]. cbn in Hfs2, Hdb2. subst fs.
    unfold found.
    change (respond Backend.env (UsersSelectSingle "*" (User.id u)) ?w0)
      with (Backend.store (UsersSelectSingle "*" (User.id u)) w0).
    unfold Backend.store. cbn [Backend.faults Backend.users tail fst snd Backend.serve].
    by rewrite Hdb2. }
  assert (prop (Backend.sent payload ∪ row) "last_login" = JStr t) as Hlast.
  { apply prop_union_l. by apply sent_lookup_Some. }
  destruct (mapSupabaseUser_stored_last_login Backend.env up.1 u _ Hfound)
    as (x' & Hx' & Hl & Hi & Hr & _).
  { rewrite Hlast. cbn.
    destruct (String.eqb_spec t "") as [Heq | _]; [exfalso; exact (Ht Heq) | reflexivity]. }
  rewrite Hx in Hx'. injection Hx' as <-.
  exists x. split; [exact Hout|]. rewrite Hl, Hi, Hr, Hlast.
  rewrite !merged_prop_other by (apply sent_lookup_None; reflexivity).
  split; [reflexivity|]. split; reflexivity.
Qed.

Lemma signIn_reads_back_last_login_witness :
  ∃ x, outcome (rest (exec_flow Backend.env Browser.answer (signIn "a@example.com" "pw")
                        returning_world))
       = Resolved (SignResult.mk (Some x) None)
     ∧ TexaUser.lastLogin x = JStr "2024-05-01T10:00:00.100Z"
     ∧ TexaUser.role x = JStr "ADMIN".
Proof.
  destruct (signIn_reads_back_last_login returning_world "a@example.com" "pw" alice
              (obj [("id", JStr "u1"); ("email", JStr "a@example.com");
                    ("role", JStr "ADMIN");
                    ("last_login", JStr "2024-01-01T00:00:00.000Z")])
              "2024-05-01T10:00:00.100Z" [] [] eq_refl eq_refl eq_refl)
    as (x & Hx & Hlast & _ & Hrole); [discriminate | reflexivity |].
  exists x. split; [exact Hx|]. split; [exact Hlast | exact Hrole].
Defined.






(** X22.  [getSession] never throws and makes no request to the store:
    it returns the session that the provider reports, and when the call
    is rejected it logs the failure and returns null. *)
Theorem getSession_spec {World : Type} (env : Env World)
    (answer : forall c : Call, World -> World * Outcome (Answer c)) (w : World) :
  let run := exec_flow env answer getSession w in
  ∃ r, outcome (rest run) = Resolved r
     ∧ asked run = [GetSession]
     ∧ requests (trace (rest run)) = []
     ∧ (∀ a, (answer GetSession w).2 = Resolved a ->
             r = SessionData.session a ∧ trace (rest run) = [])
     ∧ (∀ e, (answer GetSession w).2 = Rejected e ->
             r = None ∧ trace (rest run) = [Logged "Error getting session:"]).
Proof.
  unfold getSession. cbn.
  destruct (answer GetSession w) as [w1 [[session]|e]]; cbn;
    eexists; (split; [reflexivity|]); (split; [reflexivity|]); (split; [reflexivity|]);
    split.
  - by intros a [= <-].
  - intros e [=].
  - intros a [=].
  - by intros e' [= <-].
Qed.

Lemma getSession_spec_witness :
  outcome (rest (exec_flow Backend.env Browser.answer getSession session_world))
  = Resolved (Some (Session.mk (Some alice)))
  ∧ outcome (rest (exec_flow Backend.env Browser.answer getSession empty_world))
    = Resolved None.
Proof.
  destruct (getSession_spec Backend.env Browser.answer session_world)
    as (r & Hr & _ & _ & Hok & _).
  destruct (getSession_spec Backend.env Browser.answer empty_world)
    as (r' & Hr' & _ & _ & _ & Hrej).
  split.
  - rewrite Hr. f_equal.
    exact (proj1 (Hok (SessionData.mk (Some (Session.mk (Some alice)))) eq_refl)).
  - rewrite Hr'. f_equal.
    exact (proj1 (Hrej {| message := Some "Failed to fetch" |} eq_refl)).
Defined.

(** ** The default display name *)

Lemma split_nonempty (sep : ascii) (s : string) : split sep s ≠ [].
Proof.
  induction s as [|c r IH]; cbn; [done|].
  destruct (Ascii.eqb c sep); [done|]. by destruct (split sep r).
Qed.

Lemma concat_cons (sep a b : string) (l : list string) :
  String.concat sep (a :: b :: l) = (a ++ sep ++ String.concat sep (b :: l))%string.
Proof. reflexivity. Qed.

(** The pieces of [s.split(sep)] joined by [sep] give [s] back. *)
Lemma split_join (sep : ascii) (s : string) :
  String.concat (String sep EmptyString) (split sep s) = s.
Proof.
  induction s as [|c r IH]; [reflexivity|]. cbn [split].
  pose proof (split_nonempty sep r) as Hr.
  destruct (Ascii.eqb_spec c sep) as [-> | Hne].
  - destruct (split sep r) as [|h t]; [done|]. rewrite concat_cons, IH. reflexivity.
  - destruct (split sep r) as [|h t]; [done|].
    destruct t as [|h' t].
    + cbn in IH |- *. by rewrite IH.
    + rewrite concat_cons in IH |- *. rewrite <- IH. reflexivity.
Qed.

Lemma local_part_prefix (s : string) :
  ∃ rest, s = (local_part s ++ rest)%string
        ∧ (rest = "" ∨ ∃ r, rest = String "@" r).
Proof.
  induction s as [|c r (rest & IH & Hrest)]; [by exists ""; split; [|left]|].
  cbn [local_part]. destruct (Ascii.eqb_spec c "@") as [-> | Hne].
  - exists (String "@" r). split; [reflexivity|]. right. by exists r.
  - exists rest. split; [|exact Hrest].
    change (String c r = String c (local_part r ++ rest)%string). by rewrite <- IH.
Qed.

Lemma local_part_no_at (s a b : string) :
  local_part s ≠ (a ++ String "@" b)%string.
Proof.
  revert a. induction s as [|c r IH]; intros a; cbn [local_part].
  - by destruct a.
  - destruct (Ascii.eqb_spec c "@") as [-> | Hne]; [by destruct a|].
    destruct a as [|c' a]; cbn; [by intros [= ->]|].
    intros [= -> Heq]. by apply (IH a).
Qed.

(** X23.  The default display name, [email.split('@')[0]], is the part
    of the email before its first [@]: the email is this name followed
    by nothing or by a rest that begins with [@], and the name has no
    [@] in it. *)
Theorem default_name_is_prefix (email : string) :
  ∃ name rest,
    split_at_0 email = JStr name
    ∧ email = (name ++ rest)%string
    ∧ (rest = "" ∨ ∃ r, rest = String "@" r)
    ∧ ∀ a b, name ≠ (a ++ String "@" b)%string.
Proof.
  destruct (local_part_prefix email) as (rest & Heq & Hrest).
  exists (local_part email), rest.
  split_and!; [apply split_at_0_local_part | exact Heq | exact Hrest |].
  intros a b. apply local_part_no_at.
Qed.

(** ** The callback is never invoked twice *)

(** X24.  Whatever the event, the session and the environment, one run
    of the session-changed handler invokes the callback at most once. *)
Theorem handler_calls_at_most_once {World : Type} (env : Env World) (w : World)
    (event : string) (session : option Session.t) :
  length (calls (trace (exec env (authStateHandler event session) w))) ≤ 1.
Proof.
  destruct (decide (event = "SIGNED_IN" ∨ event = "TOKEN_REFRESHED")) as [Hev | Hev].
  - destruct (session ≫= Session.user) as [su|] eqn:Hsu.
    + assert (session = Some (Session.mk (Some su))) as ->.
      { destruct session as [[[u|]]|]; cbn in Hsu; congruence. }
      pose proof (handler_signed_in env w event su Hev) as (x & _ & Hrun).
      cbv zeta in Hrun.
      pose proof (proj2 (proj2 (mapSupabaseUser_quiet env w (Some su)))) as Hm.
      unfold calls in Hm |- *.
      destruct (respond env (UsersUpsert _ (Some "id")) _).2 as [a|e];
        destruct Hrun as [-> _]; rewrite omap_app, Hm; cbn; lia.
    + assert (authStateHandler event session = authStateHandler "SIGNED_IN" session) as ->
        by (by destruct Hev as [-> | ->]).
      unfold authStateHandler. cbn. rewrite Hsu. unfold mapSupabaseUser. cbn.
      destruct (invoke env None w) as [w1 [[]|e]]; cbn; lia.
  - destruct (decide (event = "SIGNED_OUT")) as [-> | Hout].
    + destruct (handler_signed_out_calls env w session) as [-> _]. cbn. lia.
    + rewrite handler_ignored; [cbn; lia|].
      rewrite !not_elem_of_cons. split_and!; try tauto. apply not_elem_of_nil.
Qed.

(** *** Budgets of the programs *)

Lemma at_most_mono {A : Type} (n m : nat) (p : Prog A) :
  n ≤ m -> at_most n p -> at_most m p.
Proof.
  intros Hnm Hp. revert m Hnm.
  induction Hp as [n a | n e | n r k _ IH | n k _ IH | n msg k _ IH | n u k _ IH];
    intros m Hnm; try (constructor; eauto).
  destruct m as [|m]; [lia|]. constructor. intros o. apply IH. lia.
Qed.

Lemma at_most_bind {A B : Type} (n : nat) (p : Prog A) (f : A -> Prog B) :
  at_most 0 p -> (∀ a, at_most n (f a)) -> at_most n (bind p f).
Proof.
  intros Hp Hf. remember 0 as z eqn:Hz.
  induction Hp as [z a | z e | z r k _ IH | z k _ IH | z msg k _ IH | z u k _ IH];
    cbn; try (constructor; eauto); [apply Hf | discriminate Hz].
Qed.

Lemma at_most_try_catch {A : Type} (p : Prog A) (h : Exn -> Prog A) :
  at_most 0 p -> (∀ e, at_most 0 (h e)) -> at_most 0 (try_catch p h).
Proof.
  intros Hp Hh. remember 0 as z eqn:Hz.
  induction Hp as [z a | z e | z r k _ IH | z k _ IH | z msg k _ IH | z u k _ IH];
    cbn; subst; try (constructor; eauto); [apply Hh | discriminate Hz].
Qed.

Lemma at_most_settle {X : Type} (n : nat) (o : Outcome X) : at_most n (settle o).
Proof. destruct o; constructor. Qed.

Lemma at_most_mapSupabaseUser (user : option User.t) : at_most 0 (mapSupabaseUser user).
Proof.
  unfold mapSupabaseUser. destruct user as [u|]; [|constructor].
  apply at_most_try_catch.
  - apply at_most_bind; [constructor; intros o; apply at_most_settle|].
    intros [[p|] [m|]]; try (by repeat constructor).
    apply at_most_bind; [|by repeat constructor].
    unfold or_else. destruct (truthy (prop p "last_login")); by repeat constructor.
  - intros e. by repeat constructor.
Qed.

Lemma at_most_getCurrentUser : at_most 0 getCurrentUser.
Proof.
  unfold getCurrentUser. apply at_most_try_catch.
  - apply at_most_bind; [constructor; intros o; apply at_most_settle|].
    intros a. apply at_most_mapSupabaseUser.
  - intros e. by repeat constructor.
Qed.

Lemma at_most_callback (u : option TexaUser.t) : at_most 1 (callback u).
Proof. constructor. intros o. apply at_most_settle. Qed.

Lemma at_most_initialUserTask : at_most 1 initialUserTask.
Proof.
  apply at_most_bind; [apply at_most_getCurrentUser|]. intros u. apply at_most_callback.
Qed.

Lemma at_most_authStateHandler (event : string) (session : option Session.t) :
  at_most 1 (authStateHandler event session).
Proof.
  unfold authStateHandler.
  destruct (String.eqb event "SIGNED_IN" || String.eqb event "TOKEN_REFRESHED").
  - apply at_most_bind; [apply at_most_mapSupabaseUser|]. intros user.
    apply at_most_bind; [|intros _; apply at_most_callback].
    destruct (session ≫= Session.user) as [su|]; [|constructor].
    apply at_most_bind; [by repeat constructor|]. intros t.
    apply at_most_bind; [|by constructor].
    constructor. intros o. apply at_most_settle.
  - destruct (String.eqb event "SIGNED_OUT"); [apply at_most_callback | constructor].
Qed.

(** *** The quota of every cause is kept *)

Lemma filter_none {A : Type} (P : A -> Prop) `{∀ x, Decision (P x)} (l : list A) :
  Forall (fun x => ¬ P x) l -> filter P l = [].
Proof.
  induction 1 as [|x l Hx _ IH]; [reflexivity|]. by rewrite filter_cons_False.
Qed.

Lemma filter_delete_other {A : Type} (P : A -> Prop) `{∀ x, Decision (P x)}
    (l : list A) (i : nat) (x : A) :
  l !! i = Some x -> ¬ P x -> filter P (delete i l) = filter P l.
Proof.
  intros Hi Hx. rewrite delete_take_drop.
  rewrite <- (take_drop_middle l i x Hi) at 3.
  by rewrite !filter_app, filter_cons_False.
Qed.

Lemma filter_delete_mine {A : Type} (P : A -> Prop) `{∀ x, Decision (P x)}
    (l : list A) (i : nat) (x : A) :
  l !! i = Some x -> P x ->
  ∃ l1 l2, filter P l = l1 ++ x :: l2 ∧ filter P (delete i l) = l1 ++ l2.
Proof.
  intros Hi Hx. exists (filter P (take i l)), (filter P (drop (S i) l)).
  rewrite delete_take_drop. rewrite <- (take_drop_middle l i x Hi) at 1.
  by rewrite !filter_app, filter_cons_True.
Qed.

Section Quota.
Context {World : Type} (env : Env World).

Lemma run_sync_budget (n : nat) (p : Prog unit) (w : World) :
  at_most n p ->
  length (run_sync env p w).1.2 ≤ n
  ∧ ∀ rest, (run_sync env p w).2 = Some rest ->
            at_most (n - length (run_sync env p w).1.2) rest.
Proof.
  intros Hp. revert w.
  induction Hp as [n a | n e | n r k Hk IH | n k _ IH | n msg k _ IH | n u k _ IH];
    intros w; cbn.
  - split; [lia | by intros rest [=]].
  - split; [lia | by intros rest [=]].
  - split; [lia|]. intros rest [= <-]. rewrite Nat.sub_0_r. by constructor.
  - apply IH.
  - apply IH.
  - destruct (IH (invoke env u w).2 (invoke env u w).1) as [Hlen Hrest].
    split; [lia|]. exact Hrest.
Qed.

Lemma settle_head_budget (n : nat) (p : Prog unit) (w : World) :
  at_most n p -> at_most n (settle_head env p w).2.
Proof. intros Hp. destruct Hp; cbn; try by constructor. done. Qed.

Lemma start_mine (t : Task) (st : State World) :
  filter (for_cause (owner t) (origin t)) (pending (start env t st))
  = filter (for_cause (owner t) (origin t)) (pending st)
    ++ match (run_sync env (code t) (world st)).2 with
       | Some rest => [mkTask (owner t) (origin t) rest]
       | None => []
       end.
Proof.
  unfold start; cbn. rewrite filter_app. f_equal.
  destruct (run_sync env (code t) (world st)).2; [|reflexivity].
  by rewrite filter_cons_True.
Qed.

Lemma start_not_mine (t : Task) (st : State World) (sid : nat) (o : Origin) :
  ¬ for_cause sid o t ->
  filter (for_cause sid o) (pending (start env t st))
  = filter (for_cause sid o) (pending st).
Proof.
  intros Hne. unfold start; cbn. rewrite filter_app.
  destruct (run_sync env (code t) (world st)).2; [|by rewrite app_nil_r].
  by rewrite filter_cons_False, app_nil_r.
Qed.

Lemma quota_start_other (t : Task) (st : State World) (sid : nat) (o : Origin) :
  ¬ for_cause sid o t -> quota st sid o -> quota (start env t st) sid o.
Proof.
  intros Hne Hq. unfold quota.
  rewrite (invocations_start_other env t st sid o Hne), (start_not_mine t st sid o Hne).
  exact Hq.
Qed.

Lemma quota_start_first (t : Task) (st : State World) :
  invocations st (owner t) (origin t) = [] ->
  filter (for_cause (owner t) (origin t)) (pending st) = [] ->
  at_most 1 (code t) ->
  quota (start env t st) (owner t) (origin t).
Proof.
  intros Hinv Hmine Ht.
  destruct (run_sync_budget 1 (code t) (world st) Ht) as [Hlen Hrest].
  unfold quota. rewrite invocations_start_same, start_mine, Hinv, Hmine. cbn [app].
  destruct (run_sync env (code t) (world st)).1.2 as [|c [|c' cs]] eqn:Hcs;
    cbn in Hlen; [left | right | lia].
  - split; [reflexivity|]. destruct (run_sync env (code t) (world st)).2 as [rest0|].
    + split; [cbn; lia|]. apply Forall_singleton. cbn. by apply Hrest.
    + split; [cbn; lia | constructor].
  - split; [reflexivity|]. destruct (run_sync env (code t) (world st)).2 as [rest0|].
    + apply Forall_singleton. cbn. by apply Hrest.
    + constructor.
Qed.

Lemma quota_start_spent (t : Task) (st : State World) :
  length (invocations st (owner t) (origin t)) = 1 ->
  Forall (fun t' => at_most 0 (code t'))
    (filter (for_cause (owner t) (origin t)) (pending st)) ->
  at_most 0 (code t) ->
  quota (start env t st) (owner t) (origin t).
Proof.
  intros Hinv Hmine Ht.
  destruct (run_sync_budget 0 (code t) (world st) Ht) as [Hlen Hrest].
  unfold quota. rewrite invocations_start_same, start_mine. right.
  destruct (run_sync env (code t) (world st)).1.2 as [|c cs] eqn:Hcs;
    cbn in Hlen; [|lia].
  rewrite app_nil_r. split; [exact Hinv|]. apply Forall_app. split; [exact Hmine|].
  destruct (run_sync env (code t) (world st)).2 as [rest0|]; [|constructor].
  apply Forall_singleton. cbn. by apply Hrest.
Qed.

Lemma quota_resume (st : State World) (i sid : nat) (o : Origin) :
  quota st sid o -> quota (resume env i st) sid o.
Proof.
  intros Hq. unfold resume. destruct (pending st !! i) as [t|] eqn:Hi; [|exact Hq].
  set (s := settle_head env (code t) (world st)).
  set (st' := mkState s.1 (listeners st) (next_sub st) (pushed st)
                (delete i (pending st)) (log st)).
  set (t' := mkTask (owner t) (origin t) s.2).
  destruct (decide (for_cause sid o t)) as [[<- <-] | Hne].
  - assert (for_cause (owner t) (origin t) t) as Hmine by done.
    destruct (filter_delete_mine _ _ i t Hi Hmine) as (l1 & l2 & Hall & Hdel).
    destruct Hq as [(Hinv & Hlen & Hbud) | (Hinv & Hbud)]; rewrite Hall in *.
    + assert (l1 = [] ∧ l2 = []) as [-> ->].
      { rewrite length_app in Hlen. cbn in Hlen.
        destruct l1, l2; cbn in Hlen; try lia. done. }
      apply (quota_start_first t' st'); [exact Hinv | exact Hdel |].
      apply settle_head_budget. cbn in Hbud. exact (Forall_inv Hbud).
    + apply Forall_app in Hbud as [H1 H2]. apply Forall_cons in H2 as [Ht H2].
      apply (quota_start_spent t' st'); [exact Hinv | |].
      * cbn. rewrite Hdel. by apply Forall_app.
      * by apply settle_head_budget.
  - apply (quota_start_other t' st'); [exact Hne|].
    unfold quota, st'. cbn [pending].
    rewrite (filter_delete_other _ _ i t Hi Hne). exact Hq.
Qed.

(** A cause for which nothing has happened yet. *)
Lemma fresh_start_other (t : Task) (st : State World) (sid : nat) (o : Origin) :
  ¬ for_cause sid o t ->
  invocations st sid o = [] ∧ filter (for_cause sid o) (pending st) = [] ->
  invocations (start env t st) sid o = []
  ∧ filter (for_cause sid o) (pending (start env t st)) = [].
Proof.
  intros Hne [Hinv Hmine].
  by rewrite (invocations_start_other env t st sid o Hne), (start_not_mine t st sid o Hne).
Qed.

Lemma deliver_quota_other (h : Prog unit) (n sid : nat) (o : Origin) (ls : list nat)
    (st : State World) :
  (∀ x, x ∈ ls -> ¬ (x = sid ∧ Pushed n = o)) ->
  quota st sid o ->
  quota (foldl (fun s x => start env (mkTask x (Pushed n) h) s) st ls) sid o.
Proof.
  revert st. induction ls as [|x ls IH]; intros st Hls Hq; [exact Hq|]. cbn.
  apply IH; [intros y Hy; apply Hls; by right|].
  apply quota_start_other; [|exact Hq]. apply Hls. by left.
Qed.

Lemma deliver_quota (h : Prog unit) (n sid : nat) (ls : list nat) (st : State World) :
  at_most 1 h -> NoDup ls -> sid ∈ ls ->
  invocations st sid (Pushed n) = []
  ∧ filter (for_cause sid (Pushed n)) (pending st) = [] ->
  quota (foldl (fun s x => start env (mkTask x (Pushed n) h) s) st ls) sid (Pushed n).
Proof.
  intros Hh Hnd. revert st. induction Hnd as [|x ls Hx Hnd IH]; intros st Hin Hfresh.
  { by apply elem_of_nil in Hin. }
  cbn. destruct (decide (x = sid)) as [-> | Hne].
  - apply deliver_quota_other; [intros y Hy [-> _]; done|].
    destruct Hfresh as [Hinv Hmine].
    by apply (quota_start_first (mkTask sid (Pushed n) h) st).
  - apply elem_of_cons in Hin as [-> | Hin]; [done|].
    apply IH; [exact Hin|]. apply fresh_start_other; [|exact Hfresh].
    intros [Heq _]. done.
Qed.

(** Subscriptions that are not issued yet have no trace. *)
Lemma wf_fresh_sub (st : State World) (sid : nat) (o : Origin) :
  wf st -> next_sub st ≤ sid ->
  invocations st sid o = [] ∧ filter (for_cause sid o) (pending st) = [].
Proof.
  intros (Hp & Hl & _ & _) Hsid. split.
  - unfold invocations. rewrite filter_none; [reflexivity|].
    eapply Forall_impl; [exact Hl|]. cbn. intros i [Hi _] [Hs _]. lia.
  - apply filter_none. eapply Forall_impl; [exact Hp|].
    cbn. intros t [Ht _] [Hs _]. lia.
Qed.

Lemma quota_step (st : State World) (a : Action) :
  wf st -> (∀ sid o, quota st sid o) -> ∀ sid o, quota (step env st a) sid o.
Proof.
  intros Hwf Hq sid o. destruct a as [|sid'|event session|i].
  - (* Subscribe *)
    change (quota (start env (mkTask (next_sub st) Initial initialUserTask) st) sid o).
    destruct (decide (for_cause sid o (mkTask (next_sub st) Initial initialUserTask)))
      as [[<- <-] | Hne]; [|by apply quota_start_other].
    destruct (wf_fresh_sub st (next_sub st) Initial Hwf) as [Hinv Hmine]; [lia|].
    apply (quota_start_first (mkTask (next_sub st) Initial initialUserTask) st);
      [exact Hinv | exact Hmine | apply at_most_initialUserTask].
  - (* Unsubscribe *)
    exact (Hq sid o).
  - (* Push *)
    change (quota
              (foldl (fun s x =>
                        start env (mkTask x (Pushed (pushed st))
                                     (authStateHandler event session)) s)
                     st (listeners st)) sid o).
    destruct (decide (sid ∈ listeners st ∧ o = Pushed (pushed st))) as [[Hin ->] | Hno].
    + apply deliver_quota; [apply at_most_authStateHandler | apply Hwf | exact Hin |].
      destruct (wf_future_silent st sid (pushed st) Hwf) as [Hinv Hp]; [lia|].
      split; [exact Hinv|]. by apply filter_none.
    + apply deliver_quota_other; [|exact (Hq sid o)].
      intros x Hx [-> <-]. by apply Hno.
  - (* Resume *)
    apply quota_resume. exact (Hq sid o).
Qed.

Lemma quota_steps (st : State World) (acts : list Action) :
  wf st -> (∀ sid o, quota st sid o) -> ∀ sid o, quota (steps env st acts) sid o.
Proof.
  revert st. induction acts as [|a acts IH]; intros st Hwf Hq; [exact Hq|].
  change (steps env st (a :: acts)) with (steps env (step env st a) acts).
  apply IH; [by apply wf_step | by apply quota_step].
Qed.
End Quota.

(** X25.  In every run of the system, whatever the environment and the
    order in which subscriptions, pushed events and settling promises
    come, the callback of a subscription is invoked at most once for its
    initial query and at most once for each pushed event. *)
Theorem callback_at_most_once {World : Type} (env : Env World) (w : World)
    (acts : list Action) (sid : nat) (o : Origin) :
  length (invocations (steps env (boot w) acts) sid o) ≤ 1.
Proof.
  assert (quota (steps env (boot w) acts) sid o) as Hq.
  { apply quota_steps; [apply wf_boot|]. intros sid' o'. left.
    split; [reflexivity|]. split; [cbn; lia | constructor]. }
  destruct Hq as [(-> & _) | (-> & _)]; cbn; lia.
Qed.

(** ** The two mappings of a stored profile *)

(** X26.  For the same stored profile, [mapSupabaseUser] and
    [getUserById] agree on id, role, isActive, subscriptionEnd and
    createdAt, and on each of email, name and photoURL whose stored
    value is set; they can differ only where the stored value is not
    set, which [getUserById] passes on and [mapSupabaseUser] replaces. *)
Theorem mappings_agree {World : Type} (env : Env World) (w : World) (u : User.t)
    (profile : JsObj) :
  found (respond env (UsersSelectSingle "*" (User.id u)) w).2 profile ->
  ∃ x y,
    outcome (exec env (mapSupabaseUser (Some u)) w) = Resolved (Some x)
    ∧ outcome (exec env (getUserById (User.id u)) w) = Resolved (Some y)
    ∧ TexaUser.id x = TexaUser.id y
    ∧ TexaUser.role x = TexaUser.role y
    ∧ TexaUser.isActive x = TexaUser.isActive y
    ∧ TexaUser.subscriptionEnd x = TexaUser.subscriptionEnd y
    ∧ TexaUser.createdAt x = TexaUser.createdAt y
    ∧ (truthy (TexaUser.email y) = true -> TexaUser.email x = TexaUser.email y)
    ∧ (truthy (TexaUser.name y) = true -> TexaUser.name x = TexaUser.name y)
    ∧ (truthy (TexaUser.photoURL y) = true -> TexaUser.photoURL x = TexaUser.photoURL y)
    ∧ (truthy (TexaUser.lastLogin y) = true -> TexaUser.lastLogin x = TexaUser.lastLogin y).
Proof.
  intros Hfound.
  pose proof (getUserById_found env w (User.id u) profile Hfound) as Hy.
  destruct (mapSupabaseUser_found env w u profile Hfound) as [t Hx].
  eexists _, _. split; [exact Hx|]. split; [exact Hy|]. cbn.
  split_and!; try reflexivity; try (intros Ht; by rewrite !(js_or_truthy _ _ Ht)).
  intros Ht.
  destruct (mapSupabaseUser_stored_last_login env w u profile Hfound Ht)
    as (x' & Hx' & Hlast & _).
  rewrite Hx in Hx'. injection Hx' as <-. exact Hlast.
Qed.

Lemma mappings_agree_witness :
  ∃ x y,
    outcome (exec Backend.env (mapSupabaseUser (Some alice)) returning_world)
    = Resolved (Some x)
    ∧ outcome (exec Backend.env (getUserById "u1") returning_world) = Resolved (Some y)
    ∧ TexaUser.role x = TexaUser.role y
    ∧ TexaUser.lastLogin x = TexaUser.lastLogin y
    ∧ TexaUser.name y = JUndefined
    ∧ TexaUser.name x = JStr "".
Proof.
  destruct (mappings_agree Backend.env returning_world alice
              (obj [("id", JStr "u1"); ("email", JStr "a@example.com");
                    ("role", JStr "ADMIN");
                    ("last_login", JStr "2024-01-01T00:00:00.000Z")]) eq_refl)
    as (x & y & Hx & Hy & _ & Hrole & _ & _ & _ & _ & _ & _ & Hlast).
  exists x, y. split; [exact Hx|]. split; [exact Hy|]. split; [exact Hrole|].
  cbn in Hx, Hy. injection Hx as <-. injection Hy as <-.
  split; [|split; reflexivity]. apply Hlast. reflexivity.
Defined.

(** X27.  On a healthy reference store [isAdmin] and [getUserById]
    agree: [isAdmin] answers true exactly when [getUserById] finds a
    user whose role is ["ADMIN"]. *)
Theorem isAdmin_agrees_with_getUserById (w : Backend.World) (userId : string) :
  Backend.faults w = [] ->
  outcome (exec Backend.env (isAdmin userId) w) = Resolved true
  ↔ ∃ x, outcome (exec Backend.env (getUserById userId) w) = Resolved (Some x)
       ∧ TexaUser.role x = JStr "ADMIN".
Proof.
  intros Hfs. destruct w as [db pr ts fs]. cbn in Hfs. subst fs.
  cbn. unfold Backend.store. cbn.
  destruct (db !! userId) as [row|]; cbn.
  - rewrite column_prop. split.
    + intros [= Hadmin]. apply js_strict_eq_true in Hadmin.
      eexists. split; [reflexivity|]. cbn. by rewrite Hadmin.
    + intros (x & [= <-] & Hrole). cbn in Hrole. f_equal.
      apply js_strict_eq_true.
      unfold js_or in Hrole. destruct (truthy (prop row "role")); [exact Hrole|].
      discriminate Hrole.
  - split; [intros [=] | intros (x & [=] & _)].
Qed.

Lemma isAdmin_agrees_with_getUserById_witness :
  outcome (exec Backend.env (isAdmin "u1") returning_world) = Resolved true.
Proof.
  apply (isAdmin_agrees_with_getUserById returning_world "u1" eq_refl).
  eexists. split; reflexivity.
Defined.
